(** * Ecommerce API: a shallow embedding of [main.py]

    The route handlers of [main.py] ([list_products], [create_order],
    [seed_products], [test_database]) are embedded as computations in a
    state-and-exception monad over a model of the document store.  The
    [bson] library and the store driver are external collaborators and enter
    through the [Bson] interface; the [database] module of the repository
    ([db], [create_document], [get_documents]) is modelled from the
    specification of the Document Store Gateway. *)

From Stdlib Require Import ZArith String Ascii List.
From stdpp Require Import base option list strings pretty gmap.

Local Open Scope Z_scope.
Local Open Scope string_scope.
Local Open Scope list_scope.

(** ** Python exceptions and the handler monad *)

(** The exception classes the handlers tell apart: FastAPI's
    [HTTPException], [ImportError], and any other subclass of [Exception]. *)
Inductive exn :=
| HTTPException (status_code : Z) (detail : string)
| ImportError (msg : string)
| Exception (msg : string).

(** [str(e)] *)
Definition exn_str (e : exn) : string :=
  match e with
  | HTTPException c d => pretty c +:+ ": " +:+ d
  | ImportError m => m
  | Exception m => m
  end.

Inductive result (A : Type) :=
| Return (a : A)
| Raise (e : exn).
Arguments Return {A} a.
Arguments Raise {A} e.

(** A computation reads and writes a state of type [S] and either returns or
    raises; the state written before a [Raise] is kept (no rollback). *)
Definition M (S A : Type) : Type := S → result A * S.

Definition ret {S A} (a : A) : M S A := λ s, (Return a, s).

Definition bind {S A B} (c : M S A) (k : A → M S B) : M S B :=
  λ s, match c s with
       | (Return a, s') => k a s'
       | (Raise e, s') => (Raise e, s')
       end.

Definition raise {S A} (e : exn) : M S A := λ s, (Raise e, s).

Definition get {S} : M S S := λ s, (Return s, s).

Definition modify {S} (f : S → S) : M S unit := λ s, (Return tt, f s).

(** [try: body except Exception as e: handler e] *)
Definition try_except {S A} (body : M S A) (handler : exn → M S A) : M S A :=
  λ s, match body s with
       | (Return a, s') => (Return a, s')
       | (Raise e, s') => handler e s'
       end.

Notation "'do' x <- c ; k" := (bind c (λ x, k))
  (at level 10, x name, c at level 100, k at level 200).
Notation "c ;; k" := (bind c (λ _, k))
  (at level 100, k at level 200, right associativity).

(** [for x in l: body x] *)
Fixpoint for_each {S A} (l : list A) (body : A → M S unit) : M S unit :=
  match l with
  | [] => ret tt
  | x :: l' => body x ;; for_each l' body
  end.

(** ** The [bson] library and the driver's identifier generator *)

(** [ObjectId_new s] is the constructor [ObjectId(s)], [None] when it raises
    [InvalidId]; [ObjectId_is_valid] is [ObjectId.is_valid]; [ObjectId_str]
    is [str] on an [ObjectId].

    Modelled from the spec: the store assigns every inserted record a
    generated identifier (section 4.1, [insert]); the generator itself is not
    part of the sources.  [ObjectId_generate used] is the identifier given
    to a record inserted into a store whose records carry the identifiers
    [used]. *)
Class Bson := {
  ObjectId : Type;
  ObjectId_eq_dec :: EqDecision ObjectId;
  ObjectId_new : string → option ObjectId;
  ObjectId_is_valid : string → bool;
  ObjectId_str : ObjectId → string;
  ObjectId_generate : list ObjectId → ObjectId;
  ObjectId_is_valid_new s :
    ObjectId_is_valid s = true → is_Some (ObjectId_new s);
  ObjectId_generate_fresh used : ObjectId_generate used ∉ used;
}.

Section Backend.
Context `{Bson}.

(** ** Documents *)

(** The Python values that occur in documents and responses.  A float
    literal is kept as an exact decimal ([VFloat 2499 2] is [24.99]); no
    handler computes with it. *)
#[local] Set Warnings "-register-all".
Inductive value :=
| VNone
| VBool (b : bool)
| VInt (n : Z)
| VFloat (mantissa : Z) (decimals : nat)
| VStr (s : string)
| VOid (o : ObjectId)
| VList (l : list value)
| VDict (d : list (string * value)).
#[local] Set Warnings "register-all".

(** A [dict] with string keys. *)
Abbreviation document := (gmap string value).

(** [str(v)].  The renderings of floats, lists and dicts are not used by any
    handler and are not modelled: they are given as the type name. *)
Definition py_str (v : value) : string :=
  match v with
  | VNone => "None"
  | VBool true => "True"
  | VBool false => "False"
  | VInt n => pretty n
  | VFloat _ _ => "<float>"
  | VStr s => s
  | VOid o => ObjectId_str o
  | VList _ => "<list>"
  | VDict _ => "<dict>"
  end.

(** [d.get(k)] *)
Definition dict_get (d : document) (k : string) : value :=
  default VNone (d !! k).

(** ** The document store *)

(** A record held by a collection: the identifier the store assigned and the
    inserted fields.  Every record of the store has an identifier. *)
Record stored := { doc_id : ObjectId; doc_body : document }.

(** The [dict] the driver hands out for a stored record. *)
Definition to_dict (r : stored) : document :=
  <["_id" := VOid (doc_id r)]> (doc_body r).

(** What reading the attribute [name] of the handle does. *)
Inductive attr :=
| AttrMissing
| AttrValue (v : string)
| AttrRaises (msg : string).

(** The handle [db].  [db_fault = Some msg] is a store that cannot be
    reached: every driver call on it raises with message [msg]. *)
Record Database := {
  db_name : attr;
  db_fault : option string;
  db_collections : gmap string (list stored);
}.

(** [db[coll]]: a collection that was never written to is empty. *)
Definition collection (d : Database) (coll : string) : list stored :=
  default [] (db_collections d !! coll).

(** The identifiers carried by the records of the store. *)
Definition db_ids (d : Database) : list ObjectId :=
  map_to_list (db_collections d) ≫= λ kv, doc_id <$> kv.2.

(** The record [r] joins the end of the collection [coll]. *)
Definition db_insert (coll : string) (r : stored) (d : Database) : Database :=
  {| db_name := db_name d;
     db_fault := db_fault d;
     db_collections := <[coll := collection d coll ++ [r]]> (db_collections d) |}.

(** Calls that reach the [bson] library and the driver, in program order. *)
Inductive call :=
| is_valid_call (s : string)
| find_one_call (coll : string) (oid : ObjectId)
| count_documents_call (coll : string)
| insert_one_call (coll : string) (data : document)
| find_call (coll : string)
| list_collection_names_call.

(** Everything a handler can observe: what [from database import db] does
    ([w_import = Some e] when it raises [e]), the module-level handle [db]
    ([None] when it was never initialised), [os.environ], and the calls
    made so far. *)
Record World := {
  w_import : option exn;
  w_db : option Database;
  w_environ : gmap string string;
  w_calls : list call;
}.

Definition set_db (d : Database) (w : World) : World :=
  {| w_import := w_import w; w_db := Some d;
     w_environ := w_environ w; w_calls := w_calls w |}.

Definition add_calls (cs : list call) (w : World) : World :=
  {| w_import := w_import w; w_db := w_db w;
     w_environ := w_environ w; w_calls := w_calls w ++ cs |}.

Definition log (c : call) : M World unit := modify (add_calls [c]).

(** A driver call on the handle [d]: it is recorded, and raises when the
    store cannot be reached. *)
Definition driver {A} (c : call) (d : Database) (answer : A) : M World A :=
  log c ;;
  match db_fault d with
  | Some msg => raise (Exception msg)
  | None => ret answer
  end.

(** [db[...]] on the module-level handle: [None] is not subscriptable.
    The collection object obtained is represented by the handle it belongs
    to, the name being passed along to the call. *)
Definition db_getitem : M World Database :=
  do w <- get;
  match w_db w with
  | None => raise (Exception "'NoneType' object is not subscriptable")
  | Some d => ret d
  end.

(** [.find_one({"_id": oid})] on the collection [coll] *)
Definition find_one (d : Database) (coll : string) (oid : ObjectId)
  : M World (option document) :=
  driver (find_one_call coll oid) d
    (to_dict <$> List.find (λ r, bool_decide (doc_id r = oid)) (collection d coll)).

(** [.count_documents({})] on the collection [coll] *)
Definition count_documents (d : Database) (coll : string) : M World Z :=
  driver (count_documents_call coll) d (Z.of_nat (length (collection d coll))).

(** [_db.list_collection_names()] *)
Definition list_collection_names (d : Database) : M World (list string) :=
  driver list_collection_names_call d (fst <$> map_to_list (db_collections d)).

Definition database_not_available : string := "Database not available".

(** The gateway's use of the global [db]: it fails with [StoreUnavailable]
    when no connection was established. *)
Definition with_db {A} (k : Database → M World A) : M World A :=
  do w <- get;
  match w_db w with
  | None => raise (Exception database_not_available)
  | Some d => k d
  end.

(** The store after one insert of [data] into [coll]. *)
Definition insert_new (coll : string) (d : Database) (data : document) : Database :=
  db_insert coll {| doc_id := ObjectId_generate (db_ids d); doc_body := data |} d.

(** Modelled from the spec: [create_document] of the [database] module, the
    gateway's [insert(collectionName, record)] of section 4.1.  It fails
    with [StoreUnavailable] if no connection is established and lets a
    write error of the driver propagate; otherwise the record joins the
    collection under a generated identifier, which is returned rendered as
    a string. *)
Definition create_document (coll : string) (data : document) : M World string :=
  with_db (λ d,
    driver (insert_one_call coll data) d tt ;;
    modify (set_db (insert_new coll d data)) ;;
    ret (ObjectId_str (ObjectId_generate (db_ids d)))).

(** Modelled from the spec: [get_documents] of the [database] module, the
    gateway's [fetchAll(collectionName)] of section 4.1: the records of the
    collection in the order the store returns them, failing with
    [StoreUnavailable] or the driver's read error. *)
Definition get_documents (coll : string) : M World (list document) :=
  with_db (λ d, driver (find_call coll) d (to_dict <$> collection d coll)).

(** ** Schemas *)

(** Modelled from the spec: [Order] of the [schemas] module (section 3), an
    ordered sequence of line items, each a product identifier and a
    quantity; the further order fields are kept as they come. *)
Record OrderItem := { product_id : string; quantity : Z }.

Record OrderRequest := { items : list OrderItem; order_fields : document }.

Definition item_dict (i : OrderItem) : value :=
  VDict [("product_id", VStr (product_id i)); ("quantity", VInt (quantity i))].

(** The record handed to the gateway for an order. *)
Definition order_document (o : OrderRequest) : document :=
  <["items" := VList (item_dict <$> items o)]> (order_fields o).

(** ** Handlers *)

(** The body of the loop of [list_products]:
    [d["id"] = str(d.get("_id")); d.pop("_id", None)]. *)
Definition publish (d : document) : document :=
  delete "_id" (<["id" := VStr (py_str (dict_get d "_id"))]> d).

(** [GET /api/products] *)
Definition list_products : M World (list document) :=
  try_except
    (do docs <- get_documents "product";
     ret (foldl (λ products d, products ++ [publish d]) [] docs))
    (λ e, raise (HTTPException 500 (exn_str e))).

(** [ObjectId.is_valid(s)] *)
Definition is_valid (s : string) : M World bool :=
  log (is_valid_call s) ;; ret (ObjectId_is_valid s).

(** [ObjectId(s)] *)
Definition new_ObjectId (s : string) : M World ObjectId :=
  match ObjectId_new s with
  | Some o => ret o
  | None => raise (Exception ("'" +:+ s +:+ "' is not a valid ObjectId"))
  end.

(** [not prod] for the result of [find_one]: [None] and the empty [dict]
    are false. *)
Definition falsy (prod : option document) : bool :=
  match prod with
  | None => true
  | Some d => bool_decide (d = ∅)
  end.

(** The body of the loop of [create_order]. *)
Definition check_item (item : OrderItem) : M World unit :=
  do valid <- is_valid (product_id item);
  if negb valid then
    raise (HTTPException 400 ("Invalid product id: " +:+ product_id item))
  else
    do products <- db_getitem;
    do oid <- new_ObjectId (product_id item);
    do prod <- find_one products "product" oid;
    if falsy prod then
      raise (HTTPException 404 ("Product not found: " +:+ product_id item))
    else ret tt.

(** [except HTTPException: raise] followed by
    [except Exception as e: raise HTTPException(status_code=500, ...)]. *)
Definition reraise_or_500 {A} (e : exn) : M World A :=
  match e with
  | HTTPException _ _ => raise e
  | _ => raise (HTTPException 500 (exn_str e))
  end.

(** [POST /api/orders] *)
Definition create_order (order : OrderRequest) : M World document :=
  try_except
    (for_each (items order) check_item ;;
     do inserted_id <- create_document "order" (order_document order);
     ret {[ "id" := VStr inserted_id; "status" := VStr "created" ]})
    reraise_or_500.

Definition demo : list document :=
  [ {[ "title" := VStr "Classic Tee";
       "description" := VStr "Soft cotton tee in multiple colors.";
       "price" := VFloat 2499 2;
       "category" := VStr "Apparel";
       "image" := VStr "https://images.unsplash.com/photo-1512436991641-6745cdb1723f?q=80&w=1200&auto=format&fit=crop";
       "in_stock" := VBool true ]};
    {[ "title" := VStr "Minimal Backpack";
       "description" := VStr "Durable everyday backpack with laptop sleeve.";
       "price" := VFloat 790 1;
       "category" := VStr "Accessories";
       "image" := VStr "https://images.unsplash.com/photo-1500530855697-b586d89ba3ee?q=80&w=1200&auto=format&fit=crop";
       "in_stock" := VBool true ]};
    {[ "title" := VStr "Ceramic Mug";
       "description" := VStr "12oz matte-finish mug. Dishwasher safe.";
       "price" := VFloat 145 1;
       "category" := VStr "Home";
       "image" := VStr "https://images.unsplash.com/photo-1517686469429-8bdb88b9f907?q=80&w=1200&auto=format&fit=crop";
       "in_stock" := VBool true ]} ].

(** [POST /api/seed] *)
Definition seed_products : M World document :=
  try_except
    (do products <- db_getitem;
     do count <- count_documents products "product";
     if bool_decide (count > 0) then
       ret {[ "message" := VStr "Products already seeded"; "count" := VInt count ]}
     else
       for_each demo (λ d, do _ <- create_document "product" d; ret tt) ;;
       ret {[ "message" := VStr "Seeded";
              "count" := VInt (Z.of_nat (length demo)) ]})
    (λ e, raise (HTTPException 500 (exn_str e))).

(** *** The diagnostics handler *)

(** [test_database] fills a local [dict] step by step, and what was written
    before an exception stays written: its steps run over the world
    together with that [dict]. *)
Definition lift {A} (c : M World A) : M (World * document) A :=
  λ s, let '(r, w) := c s.1 in (r, (w, s.2)).

(** [response[k] = v] *)
Definition setitem (k : string) (v : value) : M (World * document) unit :=
  modify (λ s, (s.1, <[k := v]> s.2)).

(** [from database import db as _db] *)
Definition import_db : M World (option Database) :=
  do w <- get;
  match w_import w with
  | Some e => raise e
  | None => ret (w_db w)
  end.

(** [hasattr(_db, 'name')]: false when the attribute is missing, and any
    other exception of the attribute propagates. *)
Definition hasattr_name (d : Database) : M World bool :=
  match db_name d with
  | AttrMissing => ret false
  | AttrValue _ => ret true
  | AttrRaises msg => raise (Exception msg)
  end.

(** [_db.name] *)
Definition getattr_name (d : Database) : M World string :=
  match db_name d with
  | AttrMissing => raise (Exception "'Database' object has no attribute 'name'")
  | AttrValue v => ret v
  | AttrRaises msg => raise (Exception msg)
  end.

(** [os.getenv(k)] *)
Definition getenv (k : string) : M World (option string) :=
  do w <- get; ret (w_environ w !! k).

(** Truth value of what [os.getenv] returns: [None] and the empty string
    are false. *)
Definition env_truthy (v : option string) : bool :=
  match v with
  | None => false
  | Some s => negb (bool_decide (s = ""))
  end.

(** A Python [str] is held as its UTF-8 encoding, so one character (code
    point) is one lead byte followed by its continuation bytes, those of
    the form [10xxxxxx]. *)
Definition utf8_continuation (a : ascii) : bool :=
  ((128 <=? N_of_ascii a) && (N_of_ascii a <? 192))%N.

(** [s[:n]]: the first [n] characters of [s], each with all its bytes. *)
Fixpoint take_chars (n : nat) (s : string) : string :=
  match s with
  | EmptyString => EmptyString
  | String a s' =>
      if utf8_continuation a then String a (take_chars n s')
      else
        match n with
        | O => EmptyString
        | S n' => String a (take_chars n' s')
        end
  end.

(** [s[:50]] *)
Definition first50 (s : string) : string := take_chars 50 s.

Definition initial_response : document :=
  {[ "backend" := VStr "✅ Running";
     "database" := VStr "❌ Not Available";
     "database_url" := VNone;
     "database_name" := VNone;
     "connection_status" := VStr "Not Connected";
     "collections" := VList [] ]}.

Definition test_database_steps : M (World * document) unit :=
  try_except
    (do _db <- lift import_db;
     match _db with
     | Some d =>
         setitem "database" (VStr "✅ Available") ;;
         setitem "database_url" (VStr "✅ Configured") ;;
         (do has <- lift (hasattr_name d);
          do name <- (if has then lift (getattr_name d) else ret "✅ Connected");
          setitem "database_name" (VStr name)) ;;
         setitem "connection_status" (VStr "Connected") ;;
         try_except
           (do collections <- lift (list_collection_names d);
            setitem "collections" (VList (VStr <$> take 10 collections)) ;;
            setitem "database" (VStr "✅ Connected & Working"))
           (λ e, setitem "database"
                   (VStr ("⚠️  Connected but Error: " +:+ first50 (exn_str e))))
     | None =>
         setitem "database" (VStr "⚠️  Available but not initialized")
     end)
    (λ e, match e with
          | ImportError _ =>
              setitem "database"
                (VStr "❌ Database module not found (run enable-database first)")
          | _ => setitem "database" (VStr ("❌ Error: " +:+ first50 (exn_str e)))
          end) ;;
  (do url <- lift (getenv "DATABASE_URL");
   setitem "database_url" (VStr (if env_truthy url then "✅ Set" else "❌ Not Set"))) ;;
  (do name <- lift (getenv "DATABASE_NAME");
   setitem "database_name" (VStr (if env_truthy name then "✅ Set" else "❌ Not Set"))).

(** [GET /test] *)
Definition test_database : M World document :=
  λ w, match test_database_steps (w, initial_response) with
       | (Return _, s) => (Return s.2, s.1)
       | (Raise e, s) => (Raise e, s.1)
       end.

(** [GET /] *)
Definition read_root : M World document :=
  ret {[ "message" := VStr "Ecommerce API running" ]}.

(** [GET /schema] *)
Definition get_schema : M World document :=
  ret {[ "collections" := VList [VStr "user"; VStr "product"; VStr "order"] ]}.

End Backend.

Abbreviation document := (gmap string value).

(** ** Vocabulary of the properties *)

Section Vocabulary.
Context `{Bson}.

(** The store is available: the handle [d] exists and its store answers. *)
Definition working (w : World) (d : Database) : Prop :=
  w_db w = Some d ∧ db_fault d = None.

(** [s] names a product of the store [d]. *)
Definition product_exists (d : Database) (s : string) : bool :=
  match ObjectId_new s with
  | Some o => bool_decide (o ∈ doc_id <$> collection d "product")
  | None => false
  end.

(** A line item passes both checks: its identifier is well-formed and
    matches a product. *)
Definition item_ok (d : Database) (item : OrderItem) : bool :=
  ObjectId_is_valid (product_id item) && product_exists d (product_id item).

(** The calls that checking [item] makes on an available store. *)
Definition item_calls (item : OrderItem) : list call :=
  is_valid_call (product_id item) ::
  (if ObjectId_is_valid (product_id item) then
     match ObjectId_new (product_id item) with
     | Some o => [find_one_call "product" o]
     | None => []
     end
   else []).

(** The error of a line item that fails a check: 400 for the format check,
    404 for the existence check. *)
Definition item_error (item : OrderItem) : exn :=
  if ObjectId_is_valid (product_id item) then
    HTTPException 404 ("Product not found: " +:+ product_id item)
  else HTTPException 400 ("Invalid product id: " +:+ product_id item).

(** The calls that only look: a format check or a lookup. *)
Definition is_check (c : call) : bool :=
  match c with
  | is_valid_call _ | find_one_call _ _ => true
  | _ => false
  end.

(** The closing steps of [test_database]: the two environment checks. *)
Definition env_report (w : World) (r : document) : document :=
  <["database_name" :=
      VStr (if env_truthy (w_environ w !! "DATABASE_NAME")
            then "✅ Set" else "❌ Not Set")]>
    (<["database_url" :=
         VStr (if env_truthy (w_environ w !! "DATABASE_URL")
               then "✅ Set" else "❌ Not Set")]> r).

(** Reading the [name] of the handle does not raise. *)
Definition name_readable (d : Database) : Prop :=
  ∀ msg, db_name d ≠ AttrRaises msg.

(** What [test_database] first writes under ["database_name"]. *)
Definition name_report (d : Database) : string :=
  match db_name d with
  | AttrValue v => v
  | _ => "✅ Connected"
  end.

(** The status codes [create_order] answers a failed request with. *)
Definition order_status (code : Z) : Prop :=
  code = 400 ∨ code = 404 ∨ code = 500.

(** The collection a driver call works on, if it works on one. *)
Definition call_collection (c : call) : option string :=
  match c with
  | find_one_call coll _ | count_documents_call coll
  | insert_one_call coll _ | find_call coll => Some coll
  | is_valid_call _ | list_collection_names_call => None
  end.

(** The import succeeded, the handle exists and its [name] can be read. *)
Definition handle_usable (w : World) : bool :=
  match w_import w, w_db w with
  | None, Some d =>
      match db_name d with
      | AttrRaises _ => false
      | _ => true
      end
  | _, _ => false
  end.

(** The rendering of the identifier of [r] is accepted by [ObjectId.is_valid]
    and read back by [ObjectId] as that identifier. *)
Definition reads_back (r : stored) : Prop :=
  ObjectId_is_valid (ObjectId_str (doc_id r)) = true ∧
  ObjectId_new (ObjectId_str (doc_id r)) = Some (doc_id r).

(** A check that looks at the product collection, if at any. *)
Definition product_check (c : call) : Prop :=
  is_check c ∧ ∀ coll, call_collection c = Some coll → coll = "product".

(** What the loop of [create_order] can raise: its own 400 and 404, or an
    exception that is not an [HTTPException]. *)
Definition check_error (e : exn) : Prop :=
  (∃ detail, e = HTTPException 400 detail) ∨
  (∃ detail, e = HTTPException 404 detail) ∨
  (∃ msg, e = Exception msg).

(** The environment variable [k] holds a non-empty string. *)
Definition env_set (w : World) (k : string) : Prop :=
  ∃ s, w_environ w !! k = Some s ∧ s ≠ "".

(** The keys of the diagnostic object. *)
Definition diagnostic_fields : gset string :=
  {[ "backend"; "database"; "database_url"; "database_name";
     "connection_status"; "collections" ]}.

(** [len(s)]: the number of characters of [s], one per lead byte. *)
Fixpoint char_length (s : string) : nat :=
  match s with
  | EmptyString => O
  | String a s' =>
      if utf8_continuation a then char_length s' else S (char_length s')
  end.

(** The calls recorded between the worlds [w] and [w']. *)
Definition new_calls (w w' : World) : list call :=
  drop (length (w_calls w)) (w_calls w').

(** The call [c] names no collection outside [names]. *)
Definition announced (names : list value) (c : call) : Prop :=
  ∀ coll, call_collection c = Some coll → VStr coll ∈ names.

End Vocabulary.

(** ** A concrete [bson]: 24 hexadecimal digits

    Identifiers are natural numbers, written as 24 hexadecimal digits; the
    generator hands out the successor of the largest identifier in use. *)
Module HexId.

Definition is_hex (a : ascii) : bool :=
  let n := N_of_ascii a in
  ((48 <=? n) && (n <=? 57) || (97 <=? n) && (n <=? 102)
   || (65 <=? n) && (n <=? 70))%N.

Definition hex_value (a : ascii) : N :=
  let n := N_of_ascii a in
  (if n <=? 57 then n - 48 else if n <=? 70 then n - 55 else n - 87)%N.

Fixpoint parse (acc : N) (s : string) : N :=
  match s with
  | EmptyString => acc
  | String a s' => parse (16 * acc + hex_value a)%N s'
  end.

Definition valid (s : string) : bool :=
  (String.length s =? 24)%nat && forallb is_hex (list_ascii_of_string s).

Definition hex_digit (n : N) : ascii :=
  ascii_of_N (if n <? 10 then n + 48 else n + 87)%N.

Fixpoint render (digits : nat) (n : N) (tail : string) : string :=
  match digits with
  | O => tail
  | S k => render k (n / 16)%N (String (hex_digit (n mod 16)%N) tail)
  end.

Definition generate (used : list N) : N := N.succ (foldr N.max 0%N used).

Lemma generate_above used n : n ∈ used → (n < generate used)%N.
Proof.
  unfold generate. induction 1 as [n l|n m l _ IH]; simpl; lia.
Qed.

Lemma generate_fresh used : generate used ∉ used.
Proof. intros Hin. apply generate_above in Hin. lia. Qed.

Lemma valid_new s :
  valid s = true → is_Some (if valid s then Some (parse 0 s) else None).
Proof. intros ->. by eexists. Qed.

#[export] Instance bson : Bson := {|
  ObjectId := N;
  ObjectId_new s := if valid s then Some (parse 0 s) else None;
  ObjectId_is_valid := valid;
  ObjectId_str n := render 24 n "";
  ObjectId_generate := generate;
  ObjectId_is_valid_new := valid_new;
  ObjectId_generate_fresh := generate_fresh;
|}.

End HexId.

(** ** A concrete [bson] whose renderings never collide

    Identifiers are natural numbers, generated as in [HexId], and written
    in hexadecimal on 24 digits, or on as many digits as the number itself
    when that is more, so that two identifiers are never written alike. *)
Module WideId.

Definition width (n : N) : nat := Nat.max 24 (N.to_nat n).

Definition str (n : N) : string := HexId.render (width n) n "".






#[export] Instance bson : Bson := {|
  ObjectId := N;
  ObjectId_new s := if HexId.valid s then Some (HexId.parse 0 s) else None;
  ObjectId_is_valid := HexId.valid;
  ObjectId_str := str;
  ObjectId_generate := HexId.generate;
  ObjectId_is_valid_new := HexId.valid_new;
  ObjectId_generate_fresh := HexId.generate_fresh;
|}.

End WideId.

(** ** Scenarios on the concrete [bson] *)

Section Scenarios.
#[local] Existing Instance HexId.bson.

(** A reachable store with no collection yet. *)
Definition empty_db : Database :=
  {| db_name := AttrValue "shop"; db_fault := None; db_collections := ∅ |}.

Definition empty_shop : World :=
  {| w_import := None; w_db := Some empty_db; w_environ := ∅; w_calls := [] |}.

(** The store after seeding: the demo products under the identifiers
    1, 2 and 3. *)
Definition seeded_db : Database := foldl (insert_new "product") empty_db demo.

Definition seeded_shop : World :=
  {| w_import := None; w_db := Some seeded_db; w_environ := ∅; w_calls := [] |}.

(** A handle whose store does not answer. *)
Definition down_db : Database :=
  {| db_name := AttrValue "shop";
     db_fault := Some "localhost:27017: [Errno 111] Connection refused";
     db_collections := ∅ |}.

Definition down_shop : World :=
  {| w_import := None; w_db := Some down_db; w_environ := ∅; w_calls := [] |}.



(** A process whose handle was never initialised. *)
Definition unset_shop : World :=
  {| w_import := None; w_db := None; w_environ := ∅; w_calls := [] |}.

Definition line (pid : string) : OrderItem := {| product_id := pid; quantity := 1 |}.

Definition order_of (l : list OrderItem) : OrderRequest :=
  {| items := l; order_fields := ∅ |}.

Definition tee : string := "000000000000000000000001".
Definition backpack : string := "000000000000000000000002".
Definition unknown : string := "00000000000000000000000a".
Definition malformed : string := "not-a-valid-id".

End Scenarios.

(** The seeded store again, over the identifiers of [WideId]. *)
Section WideScenarios.
#[local] Existing Instance WideId.bson.

Definition wide_seeded_db : Database :=
  foldl (insert_new "product")
    {| db_name := AttrValue "shop"; db_fault := None; db_collections := ∅ |} demo.

Definition wide_seeded_shop : World :=
  {| w_import := None; w_db := Some wide_seeded_db; w_environ := ∅; w_calls := [] |}.

Definition wide_order_of (l : list OrderItem) : OrderRequest :=
  {| items := l; order_fields := ∅ |}.

End WideScenarios.

(** ** Properties of the handlers *)

Section Properties.
Context `{Bson}.

Lemma add_calls_nil w : add_calls [] w = w.
Proof. destruct w; unfold add_calls; simpl. by rewrite app_nil_r. Qed.

Lemma add_calls_app cs1 cs2 w :
  add_calls cs2 (add_calls cs1 w) = add_calls (cs1 ++ cs2) w.
Proof. unfold add_calls; simpl. by rewrite app_assoc. Qed.

Lemma working_add_calls cs w d : working w d → working (add_calls cs w) d.
Proof. by intros [??]. Qed.

Lemma to_dict_nonempty r : to_dict r ≠ ∅.
Proof. apply insert_non_empty. Qed.

Lemma find_falsy o (l : list stored) :
  falsy (to_dict <$> List.find (λ r, bool_decide (doc_id r = o)) l)
  = negb (bool_decide (o ∈ doc_id <$> l)).
Proof.
  induction l as [|r l IH]; [done|].
  rewrite fmap_cons. cbn [List.find].
  destruct (decide (doc_id r = o)) as [Hr|Hr].
  - rewrite (bool_decide_eq_true_2 _ Hr). cbn [fmap option_fmap option_map falsy].
    rewrite bool_decide_eq_false_2 by apply to_dict_nonempty.
    rewrite bool_decide_eq_true_2; [done | subst; apply list_elem_of_here].
  - rewrite (bool_decide_eq_false_2 _ Hr), IH. f_equal. apply bool_decide_ext.
    rewrite elem_of_cons. split; [by right | intros [Heq|?]; [by subst | done]].
Qed.

Lemma check_item_ok w d item :
  working w d → item_ok d item = true →
  check_item item w = (Return tt, add_calls (item_calls item) w).
Proof.
  intros [Hdb Hf] Hok. unfold item_ok, product_exists in Hok.
  apply andb_true_iff in Hok as [Hv Hex].
  unfold check_item, item_calls, is_valid, new_ObjectId, find_one, db_getitem,
    driver, log, bind, modify, ret, get, raise. simpl.
  rewrite Hv. simpl. rewrite Hdb. simpl.
  destruct (ObjectId_new (product_id item)) as [o|]; [|done].
  simpl. rewrite Hf, find_falsy, Hex. simpl.
  by rewrite add_calls_app.
Qed.

Lemma check_item_bad w d item :
  working w d → item_ok d item = false →
  check_item item w = (Raise (item_error item), add_calls (item_calls item) w).
Proof.
  intros [Hdb Hf] Hbad. unfold item_ok, product_exists in Hbad.
  unfold check_item, item_calls, item_error, is_valid, new_ObjectId, find_one,
    db_getitem, driver, log, bind, modify, ret, get, raise. simpl.
  destruct (ObjectId_is_valid (product_id item)) eqn:Hv; simpl; [|done].
  destruct (ObjectId_is_valid_new _ Hv) as [o Ho]. rewrite Ho in Hbad |- *.
  simpl in *. rewrite Hdb. simpl. rewrite Hf, find_falsy, Hbad. simpl.
  by rewrite add_calls_app.
Qed.

Lemma item_calls_checks item : Forall is_check (item_calls item).
Proof.
  unfold item_calls. constructor; [done|].
  destruct (ObjectId_is_valid _); [|done].
  destruct (ObjectId_new _); by repeat constructor.
Qed.

Lemma for_each_cons {S A} (x : A) (l : list A) (body : A → M S unit) s :
  for_each (x :: l) body s
  = match body x s with
    | (Return _, s') => for_each l body s'
    | (Raise e, s') => (Raise e, s')
    end.
Proof. done. Qed.

Lemma checks_all_ok w d l :
  working w d → Forall (λ i, item_ok d i = true) l →
  for_each l check_item w = (Return tt, add_calls (l ≫= item_calls) w).
Proof.
  intros Hw Hl. revert w Hw.
  induction Hl as [|item l Hok _ IH]; intros w Hw.
  - by rewrite add_calls_nil.
  - rewrite for_each_cons, (check_item_ok w d) by done.
    rewrite IH by by apply working_add_calls.
    by rewrite add_calls_app.
Qed.

Lemma checks_first_failure w d pre item post :
  working w d → Forall (λ i, item_ok d i = true) pre → item_ok d item = false →
  for_each (pre ++ item :: post) check_item w
  = (Raise (item_error item), add_calls ((pre ≫= item_calls) ++ item_calls item) w).
Proof.
  intros Hw Hpre Hbad. revert w Hw.
  induction Hpre as [|i pre Hok _ IH]; intros w Hw.
  - simpl app. by rewrite for_each_cons, (check_item_bad w d).
  - rewrite <- app_comm_cons, for_each_cons, (check_item_ok w d) by done.
    rewrite IH by by apply working_add_calls.
    rewrite add_calls_app. do 2 f_equal. rewrite bind_cons. by rewrite app_assoc.
Qed.

(** In every world the loop only checks, and it cannot get past a malformed
    identifier. *)
Lemma check_item_any w item :
  ∃ r cs, check_item item w = (r, add_calls cs w) ∧ Forall is_check cs ∧
          (ObjectId_is_valid (product_id item) = false → ∃ e, r = Raise e).
Proof.
  unfold check_item, is_valid, new_ObjectId, find_one, db_getitem, driver, log,
    bind, modify, ret, get, raise. simpl.
  destruct (ObjectId_is_valid (product_id item)) eqn:Hv; simpl.
  - destruct (w_db w) as [d|]; simpl.
    + destruct (ObjectId_new (product_id item)) as [o|]; simpl.
      * destruct (db_fault d); simpl.
        -- eexists _, _. rewrite add_calls_app. split; [done|].
           split; [by repeat constructor | done].
        -- destruct (falsy _); eexists _, _; rewrite add_calls_app;
             (split; [done|]); (split; [by repeat constructor | done]).
      * eexists _, _. split; [done|]. split; [by repeat constructor | done].
    + eexists _, _. split; [done|]. split; [by repeat constructor | done].
  - eexists _, _. split; [done|]. split; [by repeat constructor | eauto].
Qed.

Lemma checks_any w l :
  ∃ r cs, for_each l check_item w = (r, add_calls cs w) ∧ Forall is_check cs ∧
          ((∃ item, item ∈ l ∧ ObjectId_is_valid (product_id item) = false) →
           ∃ e, r = Raise e).
Proof.
  revert w. induction l as [|item l IH]; intros w.
  - exists (Return tt), []. rewrite add_calls_nil. split; [done|].
    split; [done|]. intros (item & Hin & _). by apply elem_of_nil in Hin.
  - rewrite for_each_cons.
    destruct (check_item_any w item) as (r & cs & -> & Hcs & Hbad).
    destruct r as [[]|e].
    + destruct (IH (add_calls cs w)) as (r' & cs' & -> & Hcs' & Hbad').
      exists r', (cs ++ cs'). rewrite add_calls_app. split; [done|].
      split; [by apply Forall_app|].
      intros (i & Hin & Hi). apply elem_of_cons in Hin as [->|Hin].
      * destruct (Hbad Hi) as [e He]. done.
      * apply Hbad'. eauto.
    + exists (Raise e), cs. eauto.
Qed.

Lemma first_failure (ok : OrderItem → bool) (l : list OrderItem) :
  (∃ item, item ∈ l ∧ ok item = false) →
  ∃ pre item post, l = pre ++ item :: post ∧
                   Forall (λ i, ok i = true) pre ∧ ok item = false.
Proof.
  induction l as [|i l IH]; intros (item & Hin & Hbad).
  - by apply elem_of_nil in Hin.
  - destruct (ok i) eqn:Hi.
    + apply elem_of_cons in Hin as [->|Hin]; [congruence|].
      destruct IH as (pre & it & post & -> & Hpre & Hit); [eauto|].
      exists (i :: pre), it, post. split; [done|]. split; [by constructor | done].
    + exists [], i, l. split; [done|]. split; [by constructor | done].
Qed.

Lemma create_order_fails w order e cs :
  for_each (items order) check_item w = (Raise e, add_calls cs w) →
  create_order order w = (reraise_or_500 (A:=document) e (add_calls cs w)).
Proof.
  intros Hloop. unfold create_order, try_except, bind. by rewrite Hloop.
Qed.

Lemma create_order_inserts w d order cs :
  working w d →
  for_each (items order) check_item w = (Return tt, add_calls cs w) →
  create_order order w
  = (Return {[ "id" := VStr (ObjectId_str (ObjectId_generate (db_ids d)));
               "status" := VStr "created" ]},
     set_db (insert_new "order" d (order_document order))
       (add_calls (cs ++ [insert_one_call "order" (order_document order)]) w)).
Proof.
  intros [Hdb Hf] Hloop.
  unfold create_order, try_except, bind. rewrite Hloop.
  unfold create_document, with_db, driver, log, bind, modify, ret, get. simpl.
  rewrite Hdb, Hf. simpl. by rewrite add_calls_app.
Qed.

Lemma db_ids_spec (d : Database) coll (r : stored) :
  r ∈ collection d coll → doc_id r ∈ db_ids d.
Proof.
  unfold collection, db_ids. intros Hr.
  destruct (db_collections d !! coll) as [l|] eqn:Hl; simpl in Hr;
    [|by apply elem_of_nil in Hr].
  apply list_elem_of_bind. exists (coll, l). split.
  - simpl. by apply list_elem_of_fmap_2.
  - by apply elem_of_map_to_list.
Qed.

Lemma collection_insert_eq coll r d :
  collection (db_insert coll r d) coll = collection d coll ++ [r].
Proof. unfold collection at 1, db_insert. simpl. by rewrite lookup_insert_eq. Qed.

Lemma collection_insert_ne coll coll' r d :
  coll ≠ coll' → collection (db_insert coll r d) coll' = collection d coll'.
Proof.
  intros Hne. unfold collection, db_insert. simpl. by rewrite lookup_insert_ne.
Qed.

(** C4. [create_order] examines the line items in the order the client
    supplied and stops at the first one that fails: with the store
    available, if every item of [pre] is a well-formed identifier of an
    existing product and [item] fails its format check or its existence
    check, the request [pre ++ item :: post] fails with the error naming
    [item] (400 when it is malformed, 404 when it is missing), whatever
    [post] holds; the calls made are exactly the checks of [pre] and of
    [item], so no item of [post] is checked and nothing is inserted. *)
Theorem create_order_fail_fast w d order pre item post :
  working w d →
  items order = pre ++ item :: post →
  Forall (λ i, item_ok d i = true) pre →
  item_ok d item = false →
  create_order order w
  = (Raise (if ObjectId_is_valid (product_id item)
            then HTTPException 404 ("Product not found: " +:+ product_id item)
            else HTTPException 400 ("Invalid product id: " +:+ product_id item)),
     add_calls ((pre ≫= item_calls) ++ item_calls item) w).
Proof.
  intros Hw Hitems Hpre Hbad.
  rewrite (create_order_fails w order (item_error item)
             ((pre ≫= item_calls) ++ item_calls item)).
  - unfold item_error. by destruct (ObjectId_is_valid _).
  - rewrite Hitems. by apply (checks_first_failure w d).
Qed.

(** C2. With the store available, if every [product_id] of the request is
    well-formed and at least one matches no product of the store,
    [create_order] fails with 404 naming the first such value, and the
    store is left as it was: no order document is inserted, even though the
    items before the missing one were valid. *)
Theorem create_order_not_found w d order :
  working w d →
  Forall (λ i, ObjectId_is_valid (product_id i) = true) (items order) →
  (∃ item, item ∈ items order ∧ product_exists d (product_id item) = false) →
  ∃ pre item post w',
    items order = pre ++ item :: post ∧
    Forall (λ i, item_ok d i = true) pre ∧
    product_exists d (product_id item) = false ∧
    create_order order w
    = (Raise (HTTPException 404 ("Product not found: " +:+ product_id item)), w') ∧
    w_db w' = w_db w ∧
    Forall is_check (drop (length (w_calls w)) (w_calls w')).
Proof.
  intros Hw Hvalid (bad & Hin & Hbad).
  destruct (first_failure (item_ok d) (items order))
    as (pre & item & post & Hitems & Hpre & Hitem).
  { exists bad. split; [done|]. unfold item_ok. rewrite Hbad. apply andb_false_r. }
  assert (Hv : ObjectId_is_valid (product_id item) = true).
  { rewrite Forall_forall in Hvalid. apply Hvalid. rewrite Hitems.
    apply elem_of_app. right. apply list_elem_of_here. }
  exists pre, item, post, (add_calls ((pre ≫= item_calls) ++ item_calls item) w).
  split; [done|]. split; [done|]. split.
  { unfold item_ok in Hitem. by rewrite Hv in Hitem. }
  split.
  { rewrite (create_order_fails w order (item_error item)
               ((pre ≫= item_calls) ++ item_calls item)).
    - unfold item_error. by rewrite Hv.
    - rewrite Hitems. by apply (checks_first_failure w d). }
  split; [done|]. simpl. rewrite drop_app_length.
  apply Forall_app. split; [|apply item_calls_checks].
  apply Forall_bind, Forall_forall. intros ??. apply item_calls_checks.
Qed.



(** C1 (amended). A request with a malformed [product_id] is never stored:
    in every state of the store [create_order] fails with an HTTP error
    after making only validity and existence checks, so no order document
    is inserted.  The error is 400 naming the malformed value when the
    store is available and every line item before it carries a well-formed
    identifier of an existing product, and also, whatever the state of the
    store, when the malformed item is the first line item. *)
Theorem create_order_malformed w order pre item post :
  items order = pre ++ item :: post →
  ObjectId_is_valid (product_id item) = false →
  (∃ code detail cs,
      create_order order w = (Raise (HTTPException code detail), add_calls cs w) ∧
      Forall is_check cs) ∧
  (∀ d, working w d → Forall (λ i, item_ok d i = true) pre →
        create_order order w
        = (Raise (HTTPException 400 ("Invalid product id: " +:+ product_id item)),
           add_calls ((pre ≫= item_calls) ++ [is_valid_call (product_id item)]) w)) ∧
  (pre = [] →
   create_order order w
   = (Raise (HTTPException 400 ("Invalid product id: " +:+ product_id item)),
      add_calls [is_valid_call (product_id item)] w)).
Proof.
  intros Hitems Hbad. split; [|split].
  - destruct (checks_any w (items order)) as (r & cs & Hloop & Hcs & Hraise).
    destruct Hraise as [e ->].
    { exists item. split; [|done]. rewrite Hitems.
      apply elem_of_app. right. apply list_elem_of_here. }
    rewrite (create_order_fails w order e cs Hloop).
    destruct e; simpl; eauto 6.
  - intros d Hw Hpre.
    rewrite (create_order_fails w order (item_error item)
               ((pre ≫= item_calls) ++ item_calls item)).
    + unfold item_error, item_calls. by rewrite Hbad.
    + rewrite Hitems. apply (checks_first_failure w d); [done..|].
      unfold item_ok. by rewrite Hbad.
  - intros ->. simpl in Hitems.
    unfold create_order, try_except. unfold bind at 1. rewrite Hitems, for_each_cons.
    unfold check_item, is_valid, log, bind, modify, ret, raise. simpl.
    by rewrite Hbad.
Qed.

(** *** Seeding and listing *)

Lemma set_db_same w d : w_db w = Some d → set_db d w = w.
Proof. destruct w; unfold set_db; simpl. by intros ->. Qed.

Lemma set_db_set_db d1 d2 w : set_db d2 (set_db d1 w) = set_db d2 w.
Proof. done. Qed.

Lemma add_calls_set_db cs d w : add_calls cs (set_db d w) = set_db d (add_calls cs w).
Proof. done. Qed.

Lemma create_document_working w d coll data :
  working w d →
  create_document coll data w
  = (Return (ObjectId_str (ObjectId_generate (db_ids d))),
     set_db (insert_new coll d data) (add_calls [insert_one_call coll data] w)).
Proof.
  intros [Hdb Hf].
  unfold create_document, with_db, driver, log, bind, modify, ret, get. simpl.
  by rewrite Hdb, Hf.
Qed.

Lemma working_set_db w d' :
  db_fault d' = None → working (set_db d' w) d'.
Proof. done. Qed.

Lemma insert_all w d coll (l : list document) :
  working w d →
  for_each l (λ data, do _ <- create_document coll data; ret tt) w
  = (Return tt,
     set_db (foldl (insert_new coll) d l) (add_calls (insert_one_call coll <$> l) w)).
Proof.
  revert w d. induction l as [|data l IH]; intros w d Hw.
  - simpl. rewrite add_calls_nil. by rewrite set_db_same by apply Hw.
  - rewrite for_each_cons. unfold bind at 1.
    rewrite (create_document_working w d) by done. unfold ret at 1.
    rewrite (IH _ (insert_new coll d data)) by (apply working_set_db, Hw).
    by rewrite add_calls_set_db, set_db_set_db, add_calls_app.
Qed.

Lemma foldl_insert_new_fault coll d (l : list document) :
  db_fault (foldl (insert_new coll) d l) = db_fault d.
Proof. revert d. induction l as [|data l IH]; intros d; [done|]. cbn [foldl]. by rewrite IH. Qed.

Lemma foldl_insert_new_bodies coll d (l : list document) :
  doc_body <$> collection (foldl (insert_new coll) d l) coll
  = (doc_body <$> collection d coll) ++ l.
Proof.
  revert d. induction l as [|data l IH]; intros d.
  - by rewrite app_nil_r.
  - cbn [foldl]. rewrite IH. unfold insert_new.
    rewrite collection_insert_eq, fmap_app, <- app_assoc. done.
Qed.

Lemma count_documents_working w d coll :
  working w d →
  (do products <- db_getitem; count_documents products coll) w
  = (Return (Z.of_nat (length (collection d coll))),
     add_calls [count_documents_call coll] w).
Proof.
  intros [Hdb Hf].
  unfold count_documents, db_getitem, driver, log, bind, modify, ret, get. simpl.
  rewrite Hdb. simpl. by rewrite Hf.
Qed.

Lemma bind_assoc {S A B C} (c : M S A) (k : A → M S B) (k' : B → M S C) s :
  (do y <- (do x <- c; k x); k' y) s = (do x <- c; do y <- k x; k' y) s.
Proof. unfold bind. by destruct (c s) as [[a|e] s']. Qed.

Lemma seed_products_seeded w d :
  working w d → collection d "product" ≠ [] →
  seed_products w
  = (Return {[ "message" := VStr "Products already seeded";
               "count" := VInt (Z.of_nat (length (collection d "product"))) ]},
     add_calls [count_documents_call "product"] w).
Proof.
  intros Hw Hne.
  unfold seed_products, try_except. rewrite <- bind_assoc. unfold bind at 1.
  rewrite (count_documents_working w d) by done.
  rewrite bool_decide_eq_true_2; [done|].
  destruct (collection d "product"); [done | simpl; lia].
Qed.

Lemma seed_products_empty w d :
  working w d → collection d "product" = [] →
  seed_products w
  = (Return {[ "message" := VStr "Seeded"; "count" := VInt 3 ]},
     set_db (foldl (insert_new "product") d demo)
       (add_calls (count_documents_call "product" :: (insert_one_call "product" <$> demo)) w)).
Proof.
  intros Hw Hempty.
  unfold seed_products, try_except. rewrite <- bind_assoc. unfold bind at 1.
  rewrite (count_documents_working w d), Hempty by done.
  rewrite bool_decide_eq_false_2 by (simpl; lia).
  unfold bind at 1.
  rewrite (insert_all _ d) by by apply working_add_calls.
  by rewrite add_calls_app.
Qed.

Lemma publish_all (docs : list document) acc :
  foldl (λ products d, products ++ [publish d]) acc docs = acc ++ (publish <$> docs).
Proof.
  revert acc. induction docs as [|d docs IH]; intros acc; simpl.
  - by rewrite app_nil_r.
  - by rewrite IH, <- app_assoc.
Qed.

Lemma list_products_working w d :
  working w d →
  list_products w
  = (Return (publish <$> (to_dict <$> collection d "product")),
     add_calls [find_call "product"] w).
Proof.
  intros [Hdb Hf].
  unfold list_products, try_except, get_documents, with_db, driver, log,
    bind, modify, ret, get. simpl.
  rewrite Hdb, Hf. simpl. by rewrite publish_all.
Qed.

Lemma publish_id (r : stored) :
  publish (to_dict r) !! "id" = Some (VStr (ObjectId_str (doc_id r))).
Proof.
  unfold publish, to_dict, dict_get.
  rewrite lookup_delete_ne by done. rewrite lookup_insert_eq.
  by rewrite lookup_insert_eq.
Qed.

Lemma publish_no_internal_id (d : document) : publish d !! "_id" = None.
Proof. unfold publish. apply lookup_delete_eq. Qed.

Lemma publish_fields (r : stored) :
  doc_body r !! "_id" = None →
  publish (to_dict r) = <["id" := VStr (ObjectId_str (doc_id r))]> (doc_body r).
Proof.
  intros Hnone. unfold publish, to_dict, dict_get.
  rewrite lookup_insert_eq. simpl.
  rewrite delete_insert_ne by done. rewrite delete_insert_eq.
  by rewrite delete_id.
Qed.

Lemma demo_no_internal_id : Forall (λ data : document, data !! "_id" = None) demo.
Proof. unfold demo. repeat constructor. Qed.

Lemma seeded_working w d :
  working w d → collection d "product" = [] →
  working (seed_products w).2 (foldl (insert_new "product") d demo) ∧
  doc_body <$> collection (foldl (insert_new "product") d demo) "product" = demo.
Proof.
  intros Hw Hempty. rewrite (seed_products_empty w d) by done. split.
  - apply working_set_db. rewrite foldl_insert_new_fault. apply Hw.
  - by rewrite foldl_insert_new_bodies, Hempty.
Qed.

(** C5. With the store available, [seed_products] on a non-empty product
    collection only counts: it inserts nothing and returns the existing
    count with the message "Products already seeded"; on an empty
    collection it inserts the three demo products, in their order, and
    returns count 3.  Hence a second call right after a call on an empty
    collection finds the three demo products, returns count 3 as already
    seeded, and leaves the store with exactly those three. *)
Theorem seed_products_idempotent w d :
  working w d →
  (collection d "product" ≠ [] →
   seed_products w
   = (Return {[ "message" := VStr "Products already seeded";
                "count" := VInt (Z.of_nat (length (collection d "product"))) ]},
      add_calls [count_documents_call "product"] w)) ∧
  (collection d "product" = [] →
   ∃ w1 d1 w2,
     seed_products w
     = (Return {[ "message" := VStr "Seeded"; "count" := VInt 3 ]}, w1) ∧
     w_db w1 = Some d1 ∧
     doc_body <$> collection d1 "product" = demo ∧
     seed_products w1
     = (Return {[ "message" := VStr "Products already seeded";
                  "count" := VInt 3 ]}, w2) ∧
     w_db w2 = Some d1).
Proof.
  intros Hw. split; [by apply seed_products_seeded|].
  intros Hempty.
  destruct (seeded_working w d Hw Hempty) as [Hw1 Hdemo].
  set (d1 := foldl (insert_new "product") d demo) in *.
  assert (Hlen : length (collection d1 "product") = 3%nat).
  { by rewrite <- (length_fmap doc_body), Hdemo. }
  exists (seed_products w).2, d1,
    (add_calls [count_documents_call "product"] (seed_products w).2).
  split; [by rewrite (seed_products_empty w d)|].
  split; [apply Hw1|]. split; [done|]. split; [|apply Hw1].
  rewrite (seed_products_seeded _ d1 Hw1); [by rewrite Hlen|].
  intros Hnil. by rewrite Hnil in Hlen.
Qed.

(** C6. With the store available, [list_products] returns one document
    per stored product, in the order of the stored collection, nothing
    sorted or cut; each carries under ["id"] the string rendering of the
    stored record's identifier and has no ["_id"] field, its other fields
    being those of the record.  In particular, after seeding an empty
    collection the listing is the three demo products, each with the
    rendering of the identifier the store generated for it. *)
Theorem list_products_round_trip w d :
  working w d →
  list_products w
  = (Return (publish <$> (to_dict <$> collection d "product")),
     add_calls [find_call "product"] w) ∧
  (∀ r : stored,
     publish (to_dict r) !! "id" = Some (VStr (ObjectId_str (doc_id r))) ∧
     publish (to_dict r) !! "_id" = None ∧
     (doc_body r !! "_id" = None →
      publish (to_dict r) = <["id" := VStr (ObjectId_str (doc_id r))]> (doc_body r))) ∧
  (collection d "product" = [] →
   ∃ d1,
     w_db (seed_products w).2 = Some d1 ∧
     doc_body <$> collection d1 "product" = demo ∧
     (list_products (seed_products w).2).1
     = Return ((λ r, <["id" := VStr (ObjectId_str (doc_id r))]> (doc_body r))
               <$> collection d1 "product")).
Proof.
  intros Hw. split; [by apply list_products_working|]. split.
  - intros r. split; [apply publish_id|].
    split; [apply publish_no_internal_id | apply publish_fields].
  - intros Hempty.
    destruct (seeded_working w d Hw Hempty) as [Hw1 Hdemo].
    set (d1 := foldl (insert_new "product") d demo) in *.
    exists d1. split; [apply Hw1|]. split; [done|].
    rewrite (list_products_working _ d1 Hw1). simpl. f_equal.
    rewrite <- list_fmap_compose. apply Forall_fmap_ext.
    pose proof demo_no_internal_id as Hno. rewrite <- Hdemo, Forall_fmap in Hno.
    eapply Forall_impl; [exact Hno|]. intros r Hr. by apply publish_fields.
Qed.

(** C9. With the store available and no product stored, [list_products]
    returns the empty list, not an error. *)
Theorem list_products_empty w d :
  working w d →
  collection d "product" = [] →
  list_products w = (Return [], add_calls [find_call "product"] w).
Proof.
  intros Hw Hempty. by rewrite (list_products_working w d), Hempty.
Qed.

(** *** Diagnostics *)

Lemma test_database_import_fails w e :
  w_import w = Some e →
  test_database w
  = (Return (env_report w
       (<["database" :=
            VStr (match e with
                  | ImportError _ =>
                      "❌ Database module not found (run enable-database first)"
                  | _ => "❌ Error: " +:+ first50 (exn_str e)
                  end)]> initial_response)), w).
Proof.
  destruct w as [imp db env calls]; simpl. intros ->. by destruct e.
Qed.

Lemma test_database_no_handle w :
  w_import w = None → w_db w = None →
  test_database w
  = (Return (env_report w
       (<["database" := VStr "⚠️  Available but not initialized"]>
          initial_response)), w).
Proof. destruct w as [imp db env calls]; simpl. by intros -> ->. Qed.

Lemma test_database_name_raises w d msg :
  w_import w = None → w_db w = Some d → db_name d = AttrRaises msg →
  test_database w
  = (Return (env_report w
       (<["database" := VStr ("❌ Error: " +:+ first50 msg)]>
          (<["database_url" := VStr "✅ Configured"]>
             (<["database" := VStr "✅ Available"]> initial_response)))), w).
Proof.
  destruct w as [imp db env calls], d as [name fault colls]; simpl.
  by intros -> -> ->.
Qed.

Lemma test_database_unreachable w d msg :
  w_import w = None → w_db w = Some d → name_readable d →
  db_fault d = Some msg →
  test_database w
  = (Return (env_report w
       (<["database" := VStr ("⚠️  Connected but Error: " +:+ first50 msg)]>
          (<["connection_status" := VStr "Connected"]>
             (<["database_name" := VStr (name_report d)]>
                (<["database_url" := VStr "✅ Configured"]>
                   (<["database" := VStr "✅ Available"]> initial_response)))))),
     add_calls [list_collection_names_call] w).
Proof.
  destruct w as [imp db env calls], d as [name fault colls]; simpl.
  intros -> -> Hname ->. destruct name as [|v|m]; [done..|].
  by destruct (Hname m).
Qed.

Lemma test_database_connected w d :
  w_import w = None → w_db w = Some d → name_readable d →
  db_fault d = None →
  test_database w
  = (Return (env_report w
       (<["database" := VStr "✅ Connected & Working"]>
          (<["collections" :=
               VList (VStr <$> take 10 (fst <$> map_to_list (db_collections d)))]>
             (<["connection_status" := VStr "Connected"]>
                (<["database_name" := VStr (name_report d)]>
                   (<["database_url" := VStr "✅ Configured"]>
                      (<["database" := VStr "✅ Available"]> initial_response))))))),
     add_calls [list_collection_names_call] w).
Proof.
  destruct w as [imp db env calls], d as [name fault colls]; simpl.
  intros -> -> Hname ->. destruct name as [|v|m]; [done..|].
  by destruct (Hname m).
Qed.

Lemma env_report_lookup w r k :
  k ≠ "database_name" → k ≠ "database_url" → env_report w r !! k = r !! k.
Proof.
  intros Hn Hu. unfold env_report.
  rewrite lookup_insert_ne by done. by rewrite lookup_insert_ne by done.
Qed.


(** C8. [test_database] returns its diagnostic object in every world,
    whatever the import of the database module, the handle, its [name]
    attribute, the driver and the environment do.  An exception of the
    import, of the inspection of the handle or of the listing of the
    collections ends up as a status string in the [database] field, and the
    [collections] field holds at most 10 names: the first 10 names of the
    store when the listing succeeds. *)
Theorem test_database_never_raises w :
  ∃ r w' names,
    test_database w = (Return r, w') ∧
    r !! "collections" = Some (VList (VStr <$> names)) ∧
    (length names ≤ 10)%nat ∧
    (∀ m, w_import w = Some (ImportError m) →
          r !! "database"
          = Some (VStr "❌ Database module not found (run enable-database first)")) ∧
    (∀ e, w_import w = Some e → (∀ m, e ≠ ImportError m) →
          r !! "database" = Some (VStr ("❌ Error: " +:+ first50 (exn_str e)))) ∧
    (∀ d msg, w_import w = None → w_db w = Some d → db_name d = AttrRaises msg →
          r !! "database" = Some (VStr ("❌ Error: " +:+ first50 msg))) ∧
    (∀ d msg, w_import w = None → w_db w = Some d → name_readable d →
          db_fault d = Some msg →
          r !! "database"
          = Some (VStr ("⚠️  Connected but Error: " +:+ first50 msg))) ∧
    (∀ d, w_import w = None → w_db w = Some d → name_readable d →
          db_fault d = None →
          names = take 10 (fst <$> map_to_list (db_collections d)) ∧
          r !! "database" = Some (VStr "✅ Connected & Working")).
Proof.
  destruct (w_import w) as [e|] eqn:Himp.
  { eexists _, _, []. split; [by apply test_database_import_fails|].
    rewrite !env_report_lookup by done.
    split; [done|]. split; [simpl; lia|].
    split; [by intros m [= ->]|]. split; [|done].
    intros e' [= <-] Hne. destruct e; [done| |done]. by destruct (Hne msg). }
  destruct (w_db w) as [d|] eqn:Hdb.
  2:{ eexists _, _, []. split; [by apply test_database_no_handle|].
      rewrite !env_report_lookup by done.
      split; [done|]. split; [simpl; lia|]. done. }
  destruct (db_name d) as [|v|msg] eqn:Hname.
  3:{ eexists _, _, []. split; [by apply (test_database_name_raises w d msg)|].
      rewrite !env_report_lookup by done.
      split; [done|]. split; [simpl; lia|].
      split; [done|]. split; [done|].
      split; [by intros d' msg' _ [= <-]; rewrite Hname; intros [= ->]|].
      split; [intros d' msg' _ [= <-] Hr | intros d' _ [= <-] Hr];
        by destruct (Hr msg). }
  all: assert (Hread : name_readable d) by (intros m; by rewrite Hname).
  all: destruct (db_fault d) as [msg|] eqn:Hfault.
  all: try (eexists _, _, []; split;
            [by apply (test_database_unreachable w d msg)|];
            rewrite !env_report_lookup by done;
            split; [done|]; split; [simpl; lia|];
            split; [done|]; split; [done|];
            split; [by intros d' msg' _ [= <-]; rewrite Hname|];
            split; [by intros d' msg' _ [= <-] _; rewrite Hfault; intros [= ->]|];
            by intros d' _ [= <-] _; rewrite Hfault).
  all: eexists _, _, (take 10 (fst <$> map_to_list (db_collections d)));
       (split; [by apply (test_database_connected w d)|]);
       rewrite !env_report_lookup by done;
       (split; [done|]); (split; [rewrite length_take; lia|]);
       (split; [done|]); (split; [done|]);
       (split; [by intros d' msg' _ [= <-]; rewrite Hname|]);
       (split; [by intros d' msg' _ [= <-] _; rewrite Hfault|]);
       by intros d' _ [= <-] _ _.
Qed.

End Properties.

(** ** Further properties of the handlers *)

Section FurtherProperties.
Context `{Bson}.

(** *** [create_order] in every world *)

Lemma product_check_is_valid s : product_check (is_valid_call s).
Proof. by split. Qed.

Lemma product_check_find_one o : product_check (find_one_call "product" o).
Proof. split; [done|]. by intros coll [= <-]. Qed.

Lemma check_item_outcome w item :
  ∃ r cs, check_item item w = (r, add_calls cs w) ∧ Forall product_check cs ∧
          (∀ e, r = Raise e → check_error e).
Proof.
  pose proof product_check_is_valid as Hv'. pose proof product_check_find_one as Hf'.
  unfold check_item, is_valid, new_ObjectId, find_one, db_getitem, driver, log,
    bind, modify, ret, get, raise. simpl.
  destruct (ObjectId_is_valid (product_id item)) eqn:Hv; simpl.
  - destruct (w_db w) as [d|]; simpl.
    + destruct (ObjectId_new (product_id item)) as [o|]; simpl.
      * destruct (db_fault d); simpl.
        -- eexists _, _. rewrite add_calls_app. split; [done|].
           split; [simpl; repeat (constructor; [by auto|]); constructor|]. intros e [= <-]. unfold check_error. eauto.
        -- destruct (falsy _); eexists _, _; rewrite add_calls_app;
             (split; [done|]); (split; [simpl; repeat (constructor; [by auto|]); constructor|]).
           ++ intros e [= <-]. unfold check_error. eauto.
           ++ done.
      * eexists _, _. split; [done|]. split; [simpl; repeat (constructor; [by auto|]); constructor|].
        intros e [= <-]. unfold check_error. eauto.
    + eexists _, _. split; [done|]. split; [simpl; repeat (constructor; [by auto|]); constructor|].
      intros e [= <-]. unfold check_error. eauto.
  - eexists _, _. split; [done|]. split; [simpl; repeat (constructor; [by auto|]); constructor|].
    intros e [= <-]. unfold check_error. eauto.
Qed.

Lemma checks_outcome w l :
  ∃ r cs, for_each l check_item w = (r, add_calls cs w) ∧ Forall product_check cs ∧
          (∀ e, r = Raise e → check_error e).
Proof.
  revert w. induction l as [|item l IH]; intros w.
  - exists (Return tt), []. by rewrite add_calls_nil.
  - rewrite for_each_cons.
    destruct (check_item_outcome w item) as (r & cs & -> & Hcs & Herr).
    destruct r as [[]|e].
    + destruct (IH (add_calls cs w)) as (r' & cs' & -> & Hcs' & Herr').
      exists r', (cs ++ cs'). rewrite add_calls_app. split; [done|].
      split; [by apply Forall_app | done].
    + exists (Raise e), cs. eauto.
Qed.

Lemma create_document_outcome w coll data :
  create_document coll data w
  = match w_db w with
    | None => (Raise (Exception database_not_available), w)
    | Some d =>
        match db_fault d with
        | Some msg => (Raise (Exception msg), add_calls [insert_one_call coll data] w)
        | None =>
            (Return (ObjectId_str (ObjectId_generate (db_ids d))),
             set_db (insert_new coll d data) (add_calls [insert_one_call coll data] w))
        end
    end.
Proof.
  unfold create_document, with_db, driver, log, bind, modify, ret, get, raise. simpl.
  destruct (w_db w) as [d|]; [|done]. by destruct (db_fault d).
Qed.

Lemma reraise_check_error e w :
  check_error e →
  ∃ code detail,
    reraise_or_500 (A:=document) e w = (Raise (HTTPException code detail), w) ∧
    order_status code.
Proof.
  unfold order_status.
  intros [[d ->]|[[d ->]|[m ->]]]; simpl; eexists _, _; (split; [done|]); auto.
Qed.

Lemma create_order_outcome w order :
  ∃ cs, Forall product_check cs ∧
    ((∃ d, w_db w = Some d ∧ db_fault d = None ∧
           create_order order w
           = (Return {[ "id" := VStr (ObjectId_str (ObjectId_generate (db_ids d)));
                        "status" := VStr "created" ]},
              set_db (insert_new "order" d (order_document order))
                (add_calls (cs ++ [insert_one_call "order" (order_document order)]) w))) ∨
     (∃ code detail cs',
         create_order order w = (Raise (HTTPException code detail), add_calls cs' w) ∧
         order_status code ∧
         (cs' = cs ∨ cs' = cs ++ [insert_one_call "order" (order_document order)]))).
Proof.
  destruct (checks_outcome w (items order)) as (r & cs & Hloop & Hcs & Herr).
  exists cs. split; [done|].
  unfold create_order, try_except, bind. rewrite Hloop.
  destruct r as [[]|e].
  - rewrite create_document_outcome. simpl.
    destruct (w_db w) as [d|] eqn:Hdb; simpl.
    + destruct (db_fault d) eqn:Hf; simpl.
      * right. eexists _, _, _. rewrite add_calls_app. split; [done|].
        unfold order_status. auto.
      * left. exists d. by rewrite add_calls_app.
    + right. eexists _, _, _. split; [done|]. unfold order_status. auto.
  - right.
    destruct (reraise_check_error e (add_calls cs w)) as (code & detail & -> & Hcode);
      [by apply Herr|].
    eexists _, _, _. split; [done|]. auto.
Qed.


(** X2. The format check comes before any use of the store: when the first
    line item carries a malformed identifier, [create_order] raises 400
    naming it after the single call to [ObjectId.is_valid], whether the
    store is available, unreachable or was never initialised. *)
Theorem create_order_format_check_first w order item rest :
  items order = item :: rest →
  ObjectId_is_valid (product_id item) = false →
  create_order order w
  = (Raise (HTTPException 400 ("Invalid product id: " +:+ product_id item)),
     add_calls [is_valid_call (product_id item)] w).
Proof.
  intros Hitems Hbad.
  unfold create_order, try_except. unfold bind at 1. rewrite Hitems, for_each_cons.
  unfold check_item, is_valid, log, bind, modify, ret, raise. simpl.
  by rewrite Hbad.
Qed.

(** X3. When the handle exists but the store behind it cannot be reached,
    a request whose first line item, if any, is well-formed is answered
    with 500 carrying the driver's message, and nothing is stored. *)
Theorem create_order_store_unreachable w d msg order :
  w_db w = Some d →
  db_fault d = Some msg →
  (∀ item, head (items order) = Some item →
           ObjectId_is_valid (product_id item) = true) →
  ∃ cs, create_order order w = (Raise (HTTPException 500 msg), add_calls cs w).
Proof.
  intros Hdb Hf Hfirst.
  unfold create_order, try_except. unfold bind at 1.
  destruct (items order) as [|item rest].
  - simpl. unfold bind at 1. rewrite create_document_outcome, Hdb, Hf. simpl. eauto.
  - rewrite for_each_cons.
    assert (Hv : ObjectId_is_valid (product_id item) = true) by by apply Hfirst.
    destruct (ObjectId_is_valid_new _ Hv) as [o Ho].
    unfold check_item, is_valid, new_ObjectId, find_one, db_getitem, driver, log,
      bind, modify, ret, get, raise. simpl.
    rewrite Hv. simpl. rewrite Hdb. simpl. rewrite Ho. simpl. rewrite Hf. simpl.
    rewrite add_calls_app. eauto.
Qed.

(** X4. When the handle was never initialised, a request whose first line
    item is well-formed fails on [db["product"]]: the answer is 500 with
    the message of the [TypeError], after the format check of that item
    only. *)
Theorem create_order_no_handle w order item rest :
  w_db w = None →
  items order = item :: rest →
  ObjectId_is_valid (product_id item) = true →
  create_order order w
  = (Raise (HTTPException 500 "'NoneType' object is not subscriptable"),
     add_calls [is_valid_call (product_id item)] w).
Proof.
  intros Hdb Hitems Hv.
  unfold create_order, try_except. unfold bind at 1. rewrite Hitems, for_each_cons.
  unfold check_item, is_valid, db_getitem, log, bind, modify, ret, get, raise. simpl.
  rewrite Hv. simpl. by rewrite Hdb.
Qed.

(** X5. [create_order] writes to the order collection only, and only by
    appending: whatever the request and the outcome, every other
    collection of the store, the products among them, is afterwards what it
    was, and the orders stored before are still there, first and in their
    order. *)
Theorem create_order_only_appends_orders w d order :
  w_db w = Some d →
  ∃ d', w_db (create_order order w).2 = Some d' ∧
        (∀ coll, coll ≠ "order" → collection d' coll = collection d coll) ∧
        collection d "order" `prefix_of` collection d' "order".
Proof.
  intros Hdb.
  destruct (create_order_outcome w order)
    as (cs & _ & [(d0 & Hdb0 & Hf & ->)|(code & detail & cs' & -> & _)]).
  - rewrite Hdb in Hdb0. injection Hdb0 as <-.
    eexists. split; [done|]. split.
    + intros coll Hne. by apply collection_insert_ne.
    + unfold insert_new. rewrite collection_insert_eq. by eexists.
  - exists d. done.
Qed.

(** *** Identifiers of the store *)

Lemma db_ids_insert coll r d :
  db_ids (db_insert coll r d) ≡ₚ doc_id r :: db_ids d.
Proof.
  unfold db_ids, db_insert, collection. simpl.
  destruct (db_collections d !! coll) as [l|] eqn:Hl; simpl.
  - rewrite <- insert_delete_eq.
    rewrite map_to_list_insert by apply lookup_delete_eq.
    rewrite <- (map_to_list_delete _ _ _ Hl).
    rewrite !bind_cons. simpl. rewrite fmap_app. simpl.
    rewrite <- app_assoc. simpl.
    by rewrite <- Permutation_middle.
  - rewrite map_to_list_insert by done. by rewrite bind_cons.
Qed.

Lemma insert_new_ids coll d data :
  db_ids (insert_new coll d data) ≡ₚ ObjectId_generate (db_ids d) :: db_ids d.
Proof. unfold insert_new. by rewrite db_ids_insert. Qed.

Lemma insert_new_unique coll d data :
  NoDup (db_ids d) → NoDup (db_ids (insert_new coll d data)).
Proof.
  intros Hnd. rewrite insert_new_ids. apply NoDup_cons.
  split; [apply ObjectId_generate_fresh | done].
Qed.

Lemma foldl_insert_new_unique coll d (l : list document) :
  NoDup (db_ids d) → NoDup (db_ids (foldl (insert_new coll) d l)).
Proof.
  revert d. induction l as [|data l IH]; intros d Hnd; [done|].
  cbn [foldl]. by apply IH, insert_new_unique.
Qed.

Lemma foldl_insert_new_other coll coll' d (l : list document) :
  coll ≠ coll' →
  collection (foldl (insert_new coll) d l) coll' = collection d coll'.
Proof.
  intros Hne. revert d. induction l as [|data l IH]; intros d; [done|].
  cbn [foldl]. rewrite IH. unfold insert_new. by apply collection_insert_ne.
Qed.

Lemma foldl_insert_new_prefix coll d (l : list document) :
  collection d coll `prefix_of` collection (foldl (insert_new coll) d l) coll.
Proof.
  revert d. induction l as [|data l IH]; intros d; [done|].
  cbn [foldl]. etrans; [|apply IH].
  unfold insert_new. rewrite collection_insert_eq. by eexists.
Qed.

Lemma seed_products_outcome w :
  match w_db w with
  | None =>
      seed_products w
      = (Raise (HTTPException 500 "'NoneType' object is not subscriptable"), w)
  | Some d =>
      match db_fault d with
      | Some msg =>
          seed_products w
          = (Raise (HTTPException 500 msg),
             add_calls [count_documents_call "product"] w)
      | None =>
          if bool_decide (collection d "product" = []) then
            seed_products w
            = (Return {[ "message" := VStr "Seeded"; "count" := VInt 3 ]},
               set_db (foldl (insert_new "product") d demo)
                 (add_calls (count_documents_call "product"
                             :: (insert_one_call "product" <$> demo)) w))
          else
            seed_products w
            = (Return {[ "message" := VStr "Products already seeded";
                         "count" := VInt (Z.of_nat (length (collection d "product"))) ]},
               add_calls [count_documents_call "product"] w)
      end
  end.
Proof.
  destruct (w_db w) as [d|] eqn:Hdb.
  - destruct (db_fault d) as [msg|] eqn:Hf.
    + unfold seed_products, try_except, count_documents, db_getitem, driver, log,
        bind, modify, ret, get, raise. simpl. rewrite Hdb. simpl. by rewrite Hf.
    + case_bool_decide as Hempty.
      * by apply seed_products_empty.
      * by apply seed_products_seeded.
  - unfold seed_products, try_except, count_documents, db_getitem, driver, log,
      bind, modify, ret, get, raise. simpl. by rewrite Hdb.
Qed.

(** X6. Identifiers stay unique: if no two records of the store share an
    identifier, then neither do they after [create_order] nor after
    [seed_products], whatever the request and the outcome. *)
Theorem handlers_keep_ids_unique w d order :
  w_db w = Some d →
  NoDup (db_ids d) →
  (∀ d', w_db (create_order order w).2 = Some d' → NoDup (db_ids d')) ∧
  (∀ d', w_db (seed_products w).2 = Some d' → NoDup (db_ids d')).
Proof.
  intros Hdb Hnd. split; intros d'.
  - destruct (create_order_outcome w order)
      as (cs & _ & [(d0 & Hdb0 & Hf & ->)|(code & detail & cs' & -> & _)]); simpl.
    + rewrite Hdb in Hdb0. injection Hdb0 as <-. intros [= <-].
      by apply insert_new_unique.
    + rewrite Hdb. by intros [= <-].
  - pose proof (seed_products_outcome w) as Hseed. rewrite Hdb in Hseed.
    destruct (db_fault d); [|case_bool_decide]; rewrite Hseed;
      cbn [snd set_db add_calls w_db].
    + rewrite Hdb. by intros [= <-].
    + intros Heq. replace d' with (foldl (insert_new "product") d demo) by congruence.
      by apply foldl_insert_new_unique.
    + rewrite Hdb. by intros [= <-].
Qed.

Lemma item_ok_insert_order d data i :
  item_ok (insert_new "order" d data) i = item_ok d i.
Proof.
  unfold item_ok, product_exists, insert_new.
  by rewrite collection_insert_ne.
Qed.

(** X7. Two orders created one after the other, each of products the store
    holds, are both stored, in the order of the calls, at the end of the
    order collection, and under two different identifiers. *)
Theorem create_order_twice w d order1 order2 :
  working w d →
  Forall (λ i, item_ok d i = true) (items order1) →
  Forall (λ i, item_ok d i = true) (items order2) →
  ∃ id1 id2 w1 w2 d2,
    create_order order1 w
    = (Return {[ "id" := VStr (ObjectId_str id1); "status" := VStr "created" ]}, w1) ∧
    create_order order2 w1
    = (Return {[ "id" := VStr (ObjectId_str id2); "status" := VStr "created" ]}, w2) ∧
    w_db w2 = Some d2 ∧
    collection d2 "order"
    = collection d "order"
      ++ [ {| doc_id := id1; doc_body := order_document order1 |};
           {| doc_id := id2; doc_body := order_document order2 |} ] ∧
    id1 ≠ id2.
Proof.
  intros Hw Hok1 Hok2.
  set (d1 := insert_new "order" d (order_document order1)).
  assert (Hw1 : working
            (set_db d1 (add_calls ((items order1 ≫= item_calls)
               ++ [insert_one_call "order" (order_document order1)]) w)) d1).
  { apply working_set_db. apply Hw. }
  assert (Hok2' : Forall (λ i, item_ok d1 i = true) (items order2)).
  { eapply Forall_impl; [exact Hok2|]. intros i Hi.
    unfold d1. by rewrite item_ok_insert_order. }
  eexists (ObjectId_generate (db_ids d)), (ObjectId_generate (db_ids d1)), _, _, _.
  split; [apply (create_order_inserts w d); [done | by apply (checks_all_ok w d)]|].
  split.
  { apply (create_order_inserts _ d1); [done|]. by apply (checks_all_ok _ d1). }
  split; [done|]. split.
  - unfold insert_new at 1. rewrite collection_insert_eq.
    unfold d1 at 1, insert_new at 1. rewrite collection_insert_eq.
    by rewrite <- app_assoc.
  - intros Heq. apply (ObjectId_generate_fresh (db_ids d1)). rewrite <- Heq.
    apply (db_ids_spec d1 "order" {| doc_id := ObjectId_generate (db_ids d);
                                     doc_body := order_document order1 |}).
    unfold d1, insert_new. rewrite collection_insert_eq.
    apply elem_of_app. right. apply list_elem_of_here.
Qed.

(** X8. What [list_products] returns can be ordered: with the store
    available and identifiers whose rendering reads back, a request whose
    every [product_id] is the ["id"] of a listed product is accepted by
    [create_order]. *)
Theorem listed_ids_are_accepted w d listed order :
  working w d →
  Forall reads_back (collection d "product") →
  (list_products w).1 = Return listed →
  Forall (λ i, ∃ doc, doc ∈ listed ∧ doc !! "id" = Some (VStr (product_id i)))
    (items order) →
  ∃ oid w2,
    create_order order (list_products w).2
    = (Return {[ "id" := VStr (ObjectId_str oid); "status" := VStr "created" ]}, w2).
Proof.
  intros Hw Hback Hlisted Hitems.
  rewrite (list_products_working w d Hw) in Hlisted |- *. simpl in Hlisted.
  injection Hlisted as <-. cbn [snd].
  eexists _, _. apply (create_order_inserts _ d); [by apply working_add_calls|].
  apply (checks_all_ok _ d); [by apply working_add_calls|].
  eapply Forall_impl; [exact Hitems|]. intros i (doc & Hin & Hid).
  apply list_elem_of_fmap in Hin as (dict & -> & Hin).
  apply list_elem_of_fmap in Hin as (r & -> & Hr).
  rewrite publish_id in Hid. injection Hid as Hid.
  rewrite Forall_forall in Hback. destruct (Hback r Hr) as [Hvalid Hnew].
  unfold item_ok, product_exists. rewrite <- Hid, Hvalid, Hnew. simpl.
  apply bool_decide_eq_true_2. by apply list_elem_of_fmap_2.
Qed.

(** *** [seed_products] and [list_products] in every world *)

(** X9. With the store available, the count [seed_products] returns is
    the number of products the store holds after the call, and that number
    is never zero. *)
Theorem seed_products_count_is_stock w d :
  working w d →
  ∃ msg d',
    (seed_products w).1
    = Return {[ "message" := VStr msg;
                "count" := VInt (Z.of_nat (length (collection d' "product"))) ]} ∧
    w_db (seed_products w).2 = Some d' ∧
    collection d' "product" ≠ [].
Proof.
  intros [Hdb Hf]. pose proof (seed_products_outcome w) as Hseed.
  rewrite Hdb, Hf in Hseed. case_bool_decide as Hempty; rewrite Hseed.
  - exists "Seeded", (foldl (insert_new "product") d demo).
    assert (Hlen : length (collection (foldl (insert_new "product") d demo) "product")
                   = 3%nat).
    { rewrite <- (length_fmap doc_body), foldl_insert_new_bodies, Hempty. done. }
    split; [by rewrite Hlen|]. split; [done|].
    intros Hnil. by rewrite Hnil in Hlen.
  - exists "Products already seeded", d. done.
Qed.

(** X10. [seed_products] writes to the product collection only, and only
    by appending: whatever the outcome, every other collection is afterwards
    what it was, and the products stored before are still there, first and
    in their order. *)
Theorem seed_products_only_appends_products w d :
  w_db w = Some d →
  ∃ d', w_db (seed_products w).2 = Some d' ∧
        (∀ coll, coll ≠ "product" → collection d' coll = collection d coll) ∧
        collection d "product" `prefix_of` collection d' "product".
Proof.
  intros Hdb. pose proof (seed_products_outcome w) as Hseed. rewrite Hdb in Hseed.
  destruct (db_fault d); [|case_bool_decide]; rewrite Hseed;
    cbn [snd set_db add_calls w_db].
  - by exists d.
  - eexists. split; [done|]. split.
    + intros coll Hne. by apply foldl_insert_new_other.
    + apply foldl_insert_new_prefix.
  - by exists d.
Qed.

(** X11. When the store cannot be used, [seed_products] answers 500 and
    inserts nothing: with the driver's message after the one counting call
    when the store behind the handle cannot be reached, and with the message
    of the [TypeError] of [db["product"]], without any call, when the handle
    was never initialised. *)
Theorem seed_products_store_error w :
  (∀ d msg, w_db w = Some d → db_fault d = Some msg →
     seed_products w
     = (Raise (HTTPException 500 msg), add_calls [count_documents_call "product"] w)) ∧
  (w_db w = None →
     seed_products w
     = (Raise (HTTPException 500 "'NoneType' object is not subscriptable"), w)).
Proof.
  pose proof (seed_products_outcome w) as Hseed. split.
  - intros d msg Hdb Hf. by rewrite Hdb, Hf in Hseed.
  - intros Hdb. by rewrite Hdb in Hseed.
Qed.

Lemma list_products_outcome w :
  list_products w
  = match w_db w with
    | None => (Raise (HTTPException 500 database_not_available), w)
    | Some d =>
        match db_fault d with
        | Some msg => (Raise (HTTPException 500 msg), add_calls [find_call "product"] w)
        | None => (Return (publish <$> (to_dict <$> collection d "product")),
                   add_calls [find_call "product"] w)
        end
    end.
Proof.
  destruct (w_db w) as [d|] eqn:Hdb.
  - destruct (db_fault d) as [msg|] eqn:Hf.
    + unfold list_products, try_except, get_documents, with_db, driver, log,
        bind, modify, ret, get, raise. simpl. rewrite Hdb. simpl. by rewrite Hf.
    + by apply list_products_working.
  - unfold list_products, try_except, get_documents, with_db, driver, log,
      bind, modify, ret, get, raise. simpl. by rewrite Hdb.
Qed.

(** X12. [list_products] only reads: in every state of the store it leaves
    the store as it was; it either returns one document per stored product
    or raises an [HTTPException] of status 500, never another error. *)
Theorem list_products_only_reads w :
  w_db (list_products w).2 = w_db w ∧
  match (list_products w).1 with
  | Return listed =>
      ∃ d, w_db w = Some d ∧ length listed = length (collection d "product")
  | Raise e => ∃ detail, e = HTTPException 500 detail
  end.
Proof.
  rewrite list_products_outcome.
  destruct (w_db w) as [d|] eqn:Hdb; [destruct (db_fault d)|]; simpl.
  - split; [done|]. eauto.
  - split; [done|]. exists d. by rewrite !length_fmap.
  - split; [done|]. eauto.
Qed.

(** X13. When the store behind the handle cannot be reached,
    [list_products] answers 500 with the driver's message as detail. *)
Theorem list_products_store_unreachable w d msg :
  w_db w = Some d →
  db_fault d = Some msg →
  list_products w
  = (Raise (HTTPException 500 msg), add_calls [find_call "product"] w).
Proof. intros Hdb Hf. by rewrite list_products_outcome, Hdb, Hf. Qed.

(** *** [test_database] in every world *)

Lemma dom_initial_response : dom initial_response = diagnostic_fields.
Proof.
  unfold initial_response, diagnostic_fields.
  rewrite !dom_insert_L, dom_singleton_L. set_solver.
Qed.

Lemma dom_insert_field k v (r : document) :
  k ∈ diagnostic_fields → dom r = diagnostic_fields →
  dom (<[k := v]> r) = diagnostic_fields.
Proof.
  intros Hk Hr. rewrite dom_insert_L, Hr.
  apply subseteq_union_1_L. by apply singleton_subseteq_l.
Qed.

Lemma dom_env_report w (r : document) :
  dom r = diagnostic_fields → dom (env_report w r) = diagnostic_fields.
Proof.
  intros Hr. unfold env_report.
  apply dom_insert_field; [set_solver|]. apply dom_insert_field; [set_solver|done].
Qed.

Lemma test_database_outcome w :
  ∃ body,
    test_database w
    = (Return (env_report w body),
       add_calls (if handle_usable w then [list_collection_names_call] else []) w) ∧
    dom body = diagnostic_fields ∧
    body !! "backend" = Some (VStr "✅ Running") ∧
    body !! "connection_status"
    = Some (VStr (if handle_usable w then "Connected" else "Not Connected")).
Proof.
  pose proof dom_initial_response as Hdom.
  unfold handle_usable.
  destruct (w_import w) as [e|] eqn:Himp.
  { eexists. rewrite add_calls_nil.
    split; [by apply test_database_import_fails|].
    split; [|done]. apply dom_insert_field; [set_solver|exact Hdom]. }
  destruct (w_db w) as [d|] eqn:Hdb.
  2:{ eexists. rewrite add_calls_nil.
      split; [by apply test_database_no_handle|].
      split; [|done]. apply dom_insert_field; [set_solver|exact Hdom]. }
  destruct (db_name d) as [|v|msg] eqn:Hname.
  3:{ eexists. rewrite add_calls_nil.
      split; [by apply (test_database_name_raises w d msg)|].
      split; [|done]. repeat first [exact Hdom | apply dom_insert_field; [set_solver|]]. }
  all: assert (Hread : name_readable d) by (intros m; by rewrite Hname).
  all: destruct (db_fault d) as [msg|] eqn:Hfault.
  all: eexists;
    (split; [first [by apply (test_database_unreachable w d msg)
                   | by apply (test_database_connected w d)]|]);
    (split; [|done]);
    repeat first [exact Hdom | apply dom_insert_field; [set_solver|]].
Qed.

(** X14. [test_database] never writes: in every world the store is left as
    it was, and the only call it can make to the driver is the listing of
    the collection names, made exactly when the import succeeded, the
    handle exists and its [name] could be read. *)
Theorem test_database_only_reads w :
  (test_database w).2
  = add_calls (if handle_usable w then [list_collection_names_call] else []) w ∧
  w_db (test_database w).2 = w_db w.
Proof.
  destruct (test_database_outcome w) as (body & -> & _). done.
Qed.

(** X15. In every world the diagnostic object has the same six fields,
    [backend] always reads "Running", and [connection_status] reads
    "Connected" exactly when the import succeeded, the handle exists and its
    [name] could be read, "Not Connected" otherwise: whether the store
    answers plays no part. *)
Theorem test_database_shape w :
  ∃ r, (test_database w).1 = Return r ∧
       dom r = diagnostic_fields ∧
       r !! "backend" = Some (VStr "✅ Running") ∧
       r !! "connection_status"
       = Some (VStr (if handle_usable w then "Connected" else "Not Connected")).
Proof.
  destruct (test_database_outcome w) as (body & -> & Hdom & Hback & Hconn).
  eexists. split; [done|]. split; [by apply dom_env_report|].
  by rewrite !env_report_lookup by done.
Qed.

(** X16. The fields [database_url] and [database_name] of the diagnostic
    object speak of the environment only: each reads "Set" when its
    variable ([DATABASE_URL], [DATABASE_NAME]) holds a non-empty string and
    "Not Set" when the variable is missing or empty, in every world; the
    "Configured" mark and the name of the handle written earlier never
    reach the caller. *)
Theorem test_database_environment w :
  ∃ r, (test_database w).1 = Return r ∧
       (env_set w "DATABASE_URL" → r !! "database_url" = Some (VStr "✅ Set")) ∧
       (¬ env_set w "DATABASE_URL" → r !! "database_url" = Some (VStr "❌ Not Set")) ∧
       (env_set w "DATABASE_NAME" → r !! "database_name" = Some (VStr "✅ Set")) ∧
       (¬ env_set w "DATABASE_NAME" → r !! "database_name" = Some (VStr "❌ Not Set")).
Proof.
  destruct (test_database_outcome w) as (body & -> & _).
  eexists. split; [done|]. unfold env_report, env_set.
  rewrite lookup_insert_ne by done. rewrite !lookup_insert_eq.
  destruct (w_environ w !! "DATABASE_URL") as [u|];
    destruct (w_environ w !! "DATABASE_NAME") as [n|]; simpl;
    repeat case_bool_decide; subst; simpl;
    repeat split; try done;
    try (by intros (s & [= <-] & Hs));
    try (by intros (s & [=] & Hs));
    try (intros Hno; destruct Hno; by eauto).
Qed.





(** *** The collections the handlers use *)

Lemma new_calls_add_calls cs w : new_calls w (add_calls cs w) = cs.
Proof. unfold new_calls. simpl. by rewrite drop_app_length. Qed.

Lemma new_calls_set_db cs d w : new_calls w (set_db d (add_calls cs w)) = cs.
Proof. unfold new_calls. simpl. by rewrite drop_app_length. Qed.

(** X18. Every collection a handler works on is one that [get_schema]
    announces: in every world and for every request, the driver calls made
    by [list_products], [create_order], [seed_products] and [test_database]
    name no collection outside the list under ["collections"]. *)
Theorem handlers_use_announced_collections w order :
  ∃ names,
    get_schema w = (Return {[ "collections" := VList names ]}, w) ∧
    Forall (announced names) (new_calls w (list_products w).2) ∧
    Forall (announced names) (new_calls w (create_order order w).2) ∧
    Forall (announced names) (new_calls w (seed_products w).2) ∧
    Forall (announced names) (new_calls w (test_database w).2).
Proof.
  eexists. split; [done|].
  assert (Hproduct : ∀ c coll, call_collection c = Some coll → coll = "product" →
            announced [VStr "user"; VStr "product"; VStr "order"] c).
  { intros c coll Hc -> coll' Hc'. rewrite Hc in Hc'. injection Hc' as <-.
    apply list_elem_of_further, list_elem_of_here. }
  assert (Horder : ∀ data,
            announced [VStr "user"; VStr "product"; VStr "order"]
              (insert_one_call "order" data)).
  { intros data coll [= <-]. do 2 apply list_elem_of_further. apply list_elem_of_here. }
  assert (Hchecks : ∀ cs, Forall product_check cs →
            Forall (announced [VStr "user"; VStr "product"; VStr "order"]) cs).
  { intros cs Hcs. eapply Forall_impl; [exact Hcs|].
    intros c [_ Hc] coll Hcoll. rewrite (Hc coll Hcoll).
    apply list_elem_of_further, list_elem_of_here. }
  split; [|split; [|split]].
  - rewrite list_products_outcome.
    destruct (w_db w) as [d|]; [destruct (db_fault d)|]; simpl;
      rewrite ?new_calls_add_calls;
      [| |unfold new_calls; rewrite drop_all; constructor];
      (constructor; [by eapply Hproduct | constructor]).
  - destruct (create_order_outcome w order)
      as (cs & Hcs & [(d & _ & _ & ->)|(code & detail & cs' & -> & _ & [->| ->])]);
      simpl; rewrite ?new_calls_set_db, ?new_calls_add_calls.
    + apply Forall_app. split; [by apply Hchecks|]. constructor; [apply Horder | constructor].
    + by apply Hchecks.
    + apply Forall_app. split; [by apply Hchecks|]. constructor; [apply Horder | constructor].
  - pose proof (seed_products_outcome w) as Hseed.
    destruct (w_db w) as [d|]; [destruct (db_fault d); [|case_bool_decide]|];
      rewrite Hseed; cbn [snd];
      rewrite ?new_calls_set_db, ?new_calls_add_calls;
      [| | |unfold new_calls; rewrite drop_all; constructor].
    + constructor; [by eapply Hproduct | constructor].
    + constructor; [by eapply Hproduct|].
      apply Forall_fmap, Forall_forall. intros data _. by eapply Hproduct.
    + constructor; [by eapply Hproduct | constructor].
  - destruct (test_database_outcome w) as (body & -> & _). simpl.
    rewrite new_calls_add_calls.
    destruct (handle_usable w); [constructor; [by intros coll | constructor] | constructor].
Qed.

End FurtherProperties.

(** ** The scenarios, checked *)

Section ScenarioChecks.
#[local] Existing Instance HexId.bson.

Example tee_ok : item_ok seeded_db (line tee) = true.
Proof. reflexivity. Qed.

Example unknown_missing :
  ObjectId_is_valid unknown = true ∧ product_exists seeded_db unknown = false.
Proof. split; reflexivity. Qed.

Example malformed_invalid : ObjectId_is_valid malformed = false.
Proof. reflexivity. Qed.

(** C1, as stated, fails: the request holds a malformed identifier, but an
    earlier line item is well-formed and matches no product, and
    [create_order] fails with 404 for that item, not with 400. *)
Lemma create_order_malformed_after_missing :
  working seeded_shop seeded_db ∧
  (∃ item, item ∈ items (order_of [line unknown; line malformed]) ∧
           ObjectId_is_valid (product_id item) = false) ∧
  (create_order (order_of [line unknown; line malformed]) seeded_shop).1
  = Raise (HTTPException 404 "Product not found: 00000000000000000000000a").
Proof.
  split; [done|]. split; [|reflexivity].
  exists (line malformed). split; [|reflexivity].
  apply list_elem_of_further, list_elem_of_here.
Qed.

Lemma create_order_malformed_witness :
  items (order_of [line tee; line malformed; line unknown])
  = [line tee] ++ line malformed :: [line unknown] ∧
  ObjectId_is_valid (product_id (line malformed)) = false ∧
  working seeded_shop seeded_db ∧
  Forall (λ i, item_ok seeded_db i = true) [line tee] ∧
  create_order (order_of [line tee; line malformed; line unknown]) seeded_shop
  = (Raise (HTTPException 400 "Invalid product id: not-a-valid-id"),
     add_calls [is_valid_call tee; find_one_call "product" 1%N;
                is_valid_call malformed] seeded_shop).
Proof.
  assert (Hpre : Forall (λ i, item_ok seeded_db i = true) [line tee])
    by (by repeat constructor).
  split; [reflexivity|]. split; [reflexivity|]. split; [done|].
  split; [exact Hpre|].
  exact (proj1 (proj2 (create_order_malformed seeded_shop
                         (order_of [line tee; line malformed; line unknown])
                         [line tee] (line malformed) [line unknown]
                         eq_refl eq_refl)) seeded_db (conj eq_refl eq_refl) Hpre).
Defined.

Lemma create_order_not_found_witness :
  working seeded_shop seeded_db ∧
  Forall (λ i, ObjectId_is_valid (product_id i) = true)
    (items (order_of [line tee; line unknown; line backpack])) ∧
  (∃ item, item ∈ items (order_of [line tee; line unknown; line backpack]) ∧
           product_exists seeded_db (product_id item) = false) ∧
  ∃ pre item post w',
    items (order_of [line tee; line unknown; line backpack]) = pre ++ item :: post ∧
    Forall (λ i, item_ok seeded_db i = true) pre ∧
    product_exists seeded_db (product_id item) = false ∧
    create_order (order_of [line tee; line unknown; line backpack]) seeded_shop
    = (Raise (HTTPException 404 ("Product not found: " +:+ product_id item)), w') ∧
    w_db w' = w_db seeded_shop ∧
    Forall is_check (drop (length (w_calls seeded_shop)) (w_calls w')).
Proof.
  assert (Hw : working seeded_shop seeded_db) by done.
  assert (Hvalid : Forall (λ i, ObjectId_is_valid (product_id i) = true)
                     (items (order_of [line tee; line unknown; line backpack])))
    by (by repeat constructor).
  assert (Hmiss : ∃ item,
             item ∈ items (order_of [line tee; line unknown; line backpack]) ∧
             product_exists seeded_db (product_id item) = false).
  { exists (line unknown). split; [|reflexivity].
    apply list_elem_of_further, list_elem_of_here. }
  split; [exact Hw|]. split; [exact Hvalid|]. split; [exact Hmiss|].
  exact (create_order_not_found seeded_shop seeded_db _ Hw Hvalid Hmiss).
Defined.

Lemma create_order_fail_fast_witness :
  working seeded_shop seeded_db ∧
  items (order_of [line tee; line unknown; line malformed])
  = [line tee] ++ line unknown :: [line malformed] ∧
  Forall (λ i, item_ok seeded_db i = true) [line tee] ∧
  item_ok seeded_db (line unknown) = false ∧
  create_order (order_of [line tee; line unknown; line malformed]) seeded_shop
  = (Raise (HTTPException 404 "Product not found: 00000000000000000000000a"),
     add_calls [is_valid_call tee; find_one_call "product" 1%N;
                is_valid_call unknown; find_one_call "product" 10%N]
       seeded_shop).
Proof.
  assert (Hw : working seeded_shop seeded_db) by done.
  assert (Hpre : Forall (λ i, item_ok seeded_db i = true) [line tee])
    by (by repeat constructor).
  split; [exact Hw|]. split; [reflexivity|]. split; [exact Hpre|].
  split; [reflexivity|].
  exact (create_order_fail_fast seeded_shop seeded_db
           (order_of [line tee; line unknown; line malformed])
           [line tee] (line unknown) [line malformed] Hw eq_refl Hpre eq_refl).
Defined.


Lemma seed_products_idempotent_witness :
  working empty_shop empty_db ∧
  collection empty_db "product" = [] ∧
  ∃ w1 d1 w2,
    seed_products empty_shop
    = (Return {[ "message" := VStr "Seeded"; "count" := VInt 3 ]}, w1) ∧
    w_db w1 = Some d1 ∧
    doc_body <$> collection d1 "product" = demo ∧
    seed_products w1
    = (Return {[ "message" := VStr "Products already seeded";
                 "count" := VInt 3 ]}, w2) ∧
    w_db w2 = Some d1.
Proof.
  split; [done|]. split; [reflexivity|].
  exact (proj2 (seed_products_idempotent empty_shop empty_db
                  (conj eq_refl eq_refl)) eq_refl).
Defined.

Lemma list_products_round_trip_witness :
  working seeded_shop seeded_db ∧
  list_products seeded_shop
  = (Return (publish <$> (to_dict <$> collection seeded_db "product")),
     add_calls [find_call "product"] seeded_shop) ∧
  (λ d : document, d !! "id") <$> (publish <$> (to_dict <$> collection seeded_db "product"))
  = [Some (VStr "000000000000000000000001");
     Some (VStr "000000000000000000000002");
     Some (VStr "000000000000000000000003")].
Proof.
  split; [done|]. split; [|reflexivity].
  exact (proj1 (list_products_round_trip seeded_shop seeded_db
                  (conj eq_refl eq_refl))).
Defined.

Lemma list_products_empty_witness :
  working empty_shop empty_db ∧
  collection empty_db "product" = [] ∧
  list_products empty_shop
  = (Return [], add_calls [find_call "product"] empty_shop).
Proof.
  split; [done|]. split; [reflexivity|].
  exact (list_products_empty empty_shop empty_db (conj eq_refl eq_refl) eq_refl).
Defined.



Example remote_message_length :
  char_length "données.exemple.fr:27017: [Errno 111] Connexion refusée par l'hôte distant (délai dépassé)"
  = 90%nat.
Proof. reflexivity. Qed.


End ScenarioChecks.

(** ** The scenario over [WideId], checked *)

Section WideScenarioChecks.
#[local] Existing Instance WideId.bson.

Example wide_seeded_ids : db_ids wide_seeded_db = [1%N; 2%N; 3%N].
Proof. reflexivity. Qed.

Example wide_order_created :
  (create_order (wide_order_of [line backpack; line tee]) wide_seeded_shop).1
  = Return {[ "id" := VStr "000000000000000000000004"; "status" := VStr "created" ]}.
Proof. reflexivity. Qed.


End WideScenarioChecks.

(** ** The further properties on the scenarios *)

Section FurtherScenarioChecks.
#[local] Existing Instance HexId.bson.

Example seeded_ids : db_ids seeded_db = [1%N; 2%N; 3%N].
Proof. reflexivity. Qed.

Lemma create_order_format_check_first_witness :
  items (order_of [line malformed; line tee]) = line malformed :: [line tee] ∧
  ObjectId_is_valid (product_id (line malformed)) = false ∧
  create_order (order_of [line malformed; line tee]) unset_shop
  = (Raise (HTTPException 400 "Invalid product id: not-a-valid-id"),
     add_calls [is_valid_call malformed] unset_shop).
Proof.
  split; [reflexivity|]. split; [reflexivity|].
  exact (create_order_format_check_first unset_shop
           (order_of [line malformed; line tee]) (line malformed) [line tee]
           eq_refl eq_refl).
Defined.

Lemma create_order_store_unreachable_witness :
  w_db down_shop = Some down_db ∧
  db_fault down_db = Some "localhost:27017: [Errno 111] Connection refused" ∧
  (∀ item, head (items (order_of [line tee])) = Some item →
           ObjectId_is_valid (product_id item) = true) ∧
  ∃ cs, create_order (order_of [line tee]) down_shop
        = (Raise (HTTPException 500 "localhost:27017: [Errno 111] Connection refused"),
           add_calls cs down_shop).
Proof.
  assert (Hfirst : ∀ item, head (items (order_of [line tee])) = Some item →
                           ObjectId_is_valid (product_id item) = true).
  { intros item Hitem. injection Hitem as <-. reflexivity. }
  split; [reflexivity|]. split; [reflexivity|]. split; [exact Hfirst|].
  exact (create_order_store_unreachable down_shop down_db _ (order_of [line tee])
           eq_refl eq_refl Hfirst).
Defined.

Lemma create_order_no_handle_witness :
  w_db unset_shop = None ∧
  items (order_of [line tee; line malformed]) = line tee :: [line malformed] ∧
  ObjectId_is_valid (product_id (line tee)) = true ∧
  create_order (order_of [line tee; line malformed]) unset_shop
  = (Raise (HTTPException 500 "'NoneType' object is not subscriptable"),
     add_calls [is_valid_call tee] unset_shop).
Proof.
  split; [reflexivity|]. split; [reflexivity|]. split; [reflexivity|].
  exact (create_order_no_handle unset_shop (order_of [line tee; line malformed])
           (line tee) [line malformed] eq_refl eq_refl eq_refl).
Defined.

Lemma create_order_only_appends_orders_witness :
  w_db seeded_shop = Some seeded_db ∧
  ∃ d', w_db (create_order (order_of [line tee]) seeded_shop).2 = Some d' ∧
        (∀ coll, coll ≠ "order" → collection d' coll = collection seeded_db coll) ∧
        collection seeded_db "order" `prefix_of` collection d' "order".
Proof.
  split; [reflexivity|].
  exact (create_order_only_appends_orders seeded_shop seeded_db
           (order_of [line tee]) eq_refl).
Defined.

Lemma seeded_ids_unique : NoDup (db_ids seeded_db).
Proof. apply (bool_decide_unpack _). by vm_compute. Qed.

Lemma handlers_keep_ids_unique_witness :
  w_db seeded_shop = Some seeded_db ∧
  NoDup (db_ids seeded_db) ∧
  (∀ d', w_db (create_order (order_of [line tee]) seeded_shop).2 = Some d' →
         NoDup (db_ids d')) ∧
  (∀ d', w_db (seed_products seeded_shop).2 = Some d' → NoDup (db_ids d')).
Proof.
  split; [reflexivity|]. split; [exact seeded_ids_unique|].
  exact (handlers_keep_ids_unique seeded_shop seeded_db (order_of [line tee])
           eq_refl seeded_ids_unique).
Defined.

Lemma create_order_twice_witness :
  working seeded_shop seeded_db ∧
  Forall (λ i, item_ok seeded_db i = true) (items (order_of [line tee])) ∧
  Forall (λ i, item_ok seeded_db i = true) (items (order_of [line backpack; line tee])) ∧
  ∃ id1 id2 w1 w2 d2,
    create_order (order_of [line tee]) seeded_shop
    = (Return {[ "id" := VStr (ObjectId_str id1); "status" := VStr "created" ]}, w1) ∧
    create_order (order_of [line backpack; line tee]) w1
    = (Return {[ "id" := VStr (ObjectId_str id2); "status" := VStr "created" ]}, w2) ∧
    w_db w2 = Some d2 ∧
    collection d2 "order"
    = collection seeded_db "order"
      ++ [ {| doc_id := id1; doc_body := order_document (order_of [line tee]) |};
           {| doc_id := id2;
              doc_body := order_document (order_of [line backpack; line tee]) |} ] ∧
    id1 ≠ id2.
Proof.
  assert (Hw : working seeded_shop seeded_db) by done.
  assert (Hok1 : Forall (λ i, item_ok seeded_db i = true) (items (order_of [line tee])))
    by (by repeat constructor).
  assert (Hok2 : Forall (λ i, item_ok seeded_db i = true)
                   (items (order_of [line backpack; line tee])))
    by (by repeat constructor).
  split; [exact Hw|]. split; [exact Hok1|]. split; [exact Hok2|].
  exact (create_order_twice seeded_shop seeded_db _ _ Hw Hok1 Hok2).
Defined.

Lemma seeded_products_read_back : Forall reads_back (collection seeded_db "product").
Proof. repeat constructor. Qed.

Lemma listed_ids_are_accepted_witness :
  working seeded_shop seeded_db ∧
  Forall reads_back (collection seeded_db "product") ∧
  (list_products seeded_shop).1
  = Return (publish <$> (to_dict <$> collection seeded_db "product")) ∧
  ∃ oid w2,
    create_order (order_of [line backpack; line tee]) (list_products seeded_shop).2
    = (Return {[ "id" := VStr (ObjectId_str oid); "status" := VStr "created" ]}, w2).
Proof.
  assert (Hw : working seeded_shop seeded_db) by done.
  assert (Hitems :
    Forall (λ i, ∃ doc, doc ∈ publish <$> (to_dict <$> collection seeded_db "product") ∧
                        doc !! "id" = Some (VStr (product_id i)))
      (items (order_of [line backpack; line tee]))).
  { apply Forall_cons. split.
    - eexists. split; [apply list_elem_of_further, list_elem_of_here | reflexivity].
    - apply Forall_cons. split; [|apply Forall_nil_2].
      eexists. split; [apply list_elem_of_here | reflexivity]. }
  split; [exact Hw|]. split; [exact seeded_products_read_back|].
  split; [reflexivity|].
  exact (listed_ids_are_accepted seeded_shop seeded_db _
           (order_of [line backpack; line tee]) Hw seeded_products_read_back
           eq_refl Hitems).
Defined.

Lemma seed_products_count_is_stock_witness :
  working empty_shop empty_db ∧
  ∃ msg d',
    (seed_products empty_shop).1
    = Return {[ "message" := VStr msg;
                "count" := VInt (Z.of_nat (length (collection d' "product"))) ]} ∧
    w_db (seed_products empty_shop).2 = Some d' ∧
    collection d' "product" ≠ [].
Proof.
  split; [done|].
  exact (seed_products_count_is_stock empty_shop empty_db (conj eq_refl eq_refl)).
Defined.

Lemma seed_products_only_appends_products_witness :
  w_db seeded_shop = Some seeded_db ∧
  ∃ d', w_db (seed_products seeded_shop).2 = Some d' ∧
        (∀ coll, coll ≠ "product" → collection d' coll = collection seeded_db coll) ∧
        collection seeded_db "product" `prefix_of` collection d' "product".
Proof.
  split; [reflexivity|].
  exact (seed_products_only_appends_products seeded_shop seeded_db eq_refl).
Defined.

Lemma list_products_store_unreachable_witness :
  w_db down_shop = Some down_db ∧
  db_fault down_db = Some "localhost:27017: [Errno 111] Connection refused" ∧
  list_products down_shop
  = (Raise (HTTPException 500 "localhost:27017: [Errno 111] Connection refused"),
     add_calls [find_call "product"] down_shop).
Proof.
  split; [reflexivity|]. split; [reflexivity|].
  exact (list_products_store_unreachable down_shop down_db _ eq_refl eq_refl).
Defined.

Example remote_message_cut :
  first50 "données.exemple.fr:27017: [Errno 111] Connexion refusée par l'hôte distant (délai dépassé)"
  = "données.exemple.fr:27017: [Errno 111] Connexion re".
Proof. reflexivity. Qed.


End FurtherScenarioChecks.
